(** * longcut: retrying save, user/video link repair, bulk repair

  A shallow embedding of

  - [lib/video-save-utils.ts]: [saveVideoAnalysisWithRetry] and
    [ensureUserVideoLink];
  - [app/api/verify-video-link/route.ts]: the POST [handler];
  - [supabase/migrations/20260122120000_fix_missing_user_videos.sql]:
    the [INSERT INTO user_videos ... ON CONFLICT DO NOTHING] statement;
  - the [SuggestedQuestions] component that follows it in the sources.

  The TypeScript code is asynchronous and talks to a Supabase client.
  Every [await] is a sequence point, so the functions are written in a
  state-and-exception monad over the state of the client; the observable
  effects (remote calls, timers, console lines) are appended to a trace. *)

From Stdlib Require Import ZArith List String Ascii Bool Lia.
From Stdlib Require Import DecimalString DecimalNat.
Import ListNotations.

Open Scope string_scope.
Open Scope Z_scope.

Set Warnings "-register-all".

(* ================================================================== *)
(** ** JavaScript values *)

Module Js.

(** [field?: T]: the field may be absent. *)
Inductive optional (A : Type) : Type :=
| Undefined
| Defined (a : A).
Arguments Undefined {A}.
Arguments Defined {A} a.

(** [unknown] payloads and parsed request bodies. *)
Inductive json : Type :=
| JNull
| JBool (b : bool)
| JNumber (n : Z)
| JString (s : string)
| JArray (items : list json)
| JObject (fields : list (string * json)).

(** A value that reaches a [catch] clause, or the [error] member of a
    Supabase response.  The code observes it in three ways:
    [err instanceof Error], [err.message] and [String(err)]. *)
Record thrown : Type := {
    instanceof_Error : bool;
    message : string;
    String_of : string
}.

(** [new Error(msg)] *)
Definition Error (msg : string) : thrown :=
  {| instanceof_Error := true; message := msg;
     String_of := "Error: " ++ msg |}.

(** [x ?? d] on an optional field ([T | undefined]). *)
Definition nullish {A : Type} (x : optional A) (d : A) : A :=
  match x with
  | Undefined => d
  | Defined a => a
  end.

(** [x ?? null] where [x?: T | null]; [None] is [null]. *)
Definition nullish_null {A : Type} (x : optional (option A)) : option A :=
  nullish x None.

(** [x ?? null] where [x?: unknown]. *)
Definition nullish_json (x : optional json) : json :=
  nullish x JNull.

(** [s.includes(sub)] *)
Fixpoint includes (s sub : string) : bool :=
  String.prefix sub s ||
  match s with
  | EmptyString => false
  | String _ rest => includes rest sub
  end.

(** Truthiness of a string: only the empty string is falsy. *)
Definition truthy_string (s : string) : bool :=
  negb (String.eqb s "").

End Js.

Import Js.

(* ================================================================== *)
(** ** The Supabase client *)

(** Arguments of [supabase.rpc('insert_video_analysis_server', {...})]. *)
Record RpcArgs : Type := {
  p_youtube_id : string;
  p_title : string;
  p_author : option string;
  p_duration : Z;
  p_thumbnail_url : option string;
  p_transcript : json;
  p_topics : json;
  p_summary : json;
  p_suggested_questions : json;
  p_model_used : option string;
  p_user_id : option string;
  p_language : option string;
  p_available_languages : json
}.

(** What an awaited promise does: it resolves, or it rejects and the
  rejection is thrown at the [await]. *)
Inductive awaited (A : Type) : Type :=
| Resolved (a : A)
| Rejected (e : thrown).
Arguments Resolved {A} a.
Arguments Rejected {A} e.

(** The [{ data, error }] pair every Supabase call resolves to. *)
Record Response (A : Type) : Type := {
  data : option A;
  error : option thrown
}.
Arguments data {A} r.
Arguments error {A} r.

(** The [error] of a response is the parsed JSON body of the reply: a plain
    object with a [message], not an instance of [Error], and [String] renders
    it as ['[object Object]']. *)
Definition PostgrestError (msg : string) : thrown :=
  {| instanceof_Error := false; message := msg;
     String_of := "[object Object]" |}.

Record VideoRow : Type := { video_id_of : string }.  (* select('id') on video_analyses *)
Record LinkRow : Type := { link_id_of : nat }.       (* select('id') on user_videos *)

(** The row handed to [.upsert(...)]. *)
Record LinkValues : Type := {
  lv_user_id : string;
  lv_video_id : string;
  lv_accessed_at : string
}.

Record User : Type := { user_id_of : string }.

(** [SupabaseClient], restricted to the calls the code makes.  [S] is the
  state of whatever stands behind the client. *)
Record SupabaseClient (S : Type) : Type := {
  (* supabase.rpc(fn, args) *)
  rpc : string -> RpcArgs -> S -> awaited (Response string) * S;
  (* from('video_analyses').select('id').eq('youtube_id', y).single() *)
  video_analyses_by_youtube_id : string -> S -> awaited (Response VideoRow) * S;
  (* from('user_videos').select('id').eq('user_id', u).eq('video_id', v).single() *)
  user_videos_by_user_and_video : string -> string -> S -> awaited (Response LinkRow) * S;
  (* from('user_videos').upsert(values, { onConflict }) *)
  user_videos_upsert : LinkValues -> string -> S -> awaited (Response unit) * S;
  (* auth.getUser(), reduced to data.user *)
  auth_getUser : S -> awaited (option User) * S
}.
Arguments rpc {S} _ _ _ _.
Arguments video_analyses_by_youtube_id {S} _ _ _.
Arguments user_videos_by_user_and_video {S} _ _ _ _.
Arguments user_videos_upsert {S} _ _ _ _.
Arguments auth_getUser {S} _ _.

(* ================================================================== *)
(** ** Effects: trace, state and exceptions *)

(** One piece of a console line. *)
Inductive log_arg : Type :=
| LText (s : string)
| LNum (n : Z)
| LThrown (e : thrown).

Inductive event : Type :=
| EvRpc (fn : string) (args : RpcArgs)
| EvSelectVideo (youtube_id : string)
| EvSelectLink (user_id video_id : string)
| EvUpsertLink (values : LinkValues) (onConflict : string)
| EvGetUser
| EvRequestJson
| EvCreateClient
| EvTimeout (ms : Z)
| EvConsoleWarn (line : list log_arg)
| EvConsoleError (line : list log_arg).

Inductive completion (A : Type) : Type :=
| Normal (a : A)
| Thrown (e : thrown)
| OutOfFuel.
Arguments Normal {A} a.
Arguments Thrown {A} e.
Arguments OutOfFuel {A}.

Section Monad.

Context {S : Type}.

(** The state threaded through a run: the client's state and the trace
    (most recent event last). *)
Definition world : Type := (S * list event)%type.

Definition M (A : Type) : Type := world -> completion A * world.

Definition ret {A : Type} (a : A) : M A := fun w => (Normal a, w).

Definition bind {A B : Type} (m : M A) (k : A -> M B) : M B :=
  fun w =>
    match m w with
    | (Normal a, w') => k a w'
    | (Thrown e, w') => (Thrown e, w')
    | (OutOfFuel, w') => (OutOfFuel, w')
    end.

Definition throw {A : Type} (e : thrown) : M A := fun w => (Thrown e, w).

Definition out_of_fuel {A : Type} : M A := fun w => (OutOfFuel, w).

(** [try { body } catch (err) { handler err }] *)
Definition try_catch {A : Type} (body : M A) (handler : thrown -> M A) : M A :=
  fun w =>
    match body w with
    | (Thrown e, w') => handler e w'
    | r => r
    end.

Definition emit (ev : event) : M unit :=
  fun w => (Normal tt, (fst w, (snd w ++ [ev])%list)).

(** [await call]: record the call, run it on the client's state, throw
    on rejection. *)
Definition await {A : Type} (ev : event) (call : S -> awaited A * S) : M A :=
  fun w =>
    let (r, s') := call (fst w) in
    let w' := (s', (snd w ++ [ev])%list) in
    match r with
    | Resolved a => (Normal a, w')
    | Rejected e => (Thrown e, w')
    end.

End Monad.

Arguments world S : clear implicits.
Arguments M S A : clear implicits.

Declare Scope js_scope.
Delimit Scope js_scope with js.
Notation "x <- m ;; k" := (bind m (fun x => k))
  (at level 61, m at next level, right associativity) : js_scope.
Notation "m ;; k" := (bind m (fun _ => k))
  (at level 61, right associativity) : js_scope.
Open Scope js_scope.

(* ================================================================== *)
(** ** lib/video-save-utils.ts *)

Record VideoAnalysisParams : Type := {
  youtubeId : string;
  title : string;
  author : option string;
  duration : Z;
  thumbnailUrl : option string;
  transcript : json;
  topics : json;
  summary : optional json;
  suggestedQuestions : optional json;
  modelUsed : optional (option string);
  userId : optional (option string);
  language : optional (option string);
  availableLanguages : optional json
}.

Module SaveResult.
Record t : Type := {
  success : bool;
  videoId : option string;
  error : option string;
  retriedCount : Z
}.
End SaveResult.

Record RetryOptions : Type := {
  maxRetries : optional Z;
  retryDelayMs : optional Z
}.

(** [const { maxRetries = 3, retryDelayMs = 500 } = options ?? {}] *)
Definition maxRetries_of (options : optional RetryOptions) : Z :=
  match options with
  | Undefined => 3
  | Defined o => nullish (maxRetries o) 3
  end.

Definition retryDelayMs_of (options : optional RetryOptions) : Z :=
  match options with
  | Undefined => 500
  | Defined o => nullish (retryDelayMs o) 500
  end.

(** The object literal passed to [supabase.rpc]. *)
Definition rpc_args_of (params : VideoAnalysisParams) : RpcArgs :=
  {| p_youtube_id := youtubeId params;
     p_title := title params;
     p_author := author params;
     p_duration := duration params;
     p_thumbnail_url := thumbnailUrl params;
     p_transcript := transcript params;
     p_topics := topics params;
     p_summary := nullish_json (summary params);
     p_suggested_questions := nullish_json (suggestedQuestions params);
     p_model_used := nullish_null (modelUsed params);
     p_user_id := nullish_null (userId params);
     p_language := nullish_null (language params);
     p_available_languages := nullish_json (availableLanguages params) |}.

(** [err instanceof Error ? err.message : String(err)] *)
Definition errorMessage_of (err : thrown) : string :=
  if instanceof_Error err then message err else String_of err.

(** The four substring tests of the [catch] clause. *)
Definition isRetryableError (errorMessage : string) : bool :=
  includes errorMessage "foreign key" ||
  includes errorMessage "profiles" ||
  includes errorMessage "violates foreign key constraint" ||
  includes errorMessage "user_videos_user_id_fkey".

(** What one turn of the [for] loop does to the control flow. *)
Inductive loop_signal (A : Type) : Type :=
| Return (a : A)
| NextIteration.
Arguments Return {A} a.
Arguments NextIteration {A}.

Section SaveVideoAnalysisWithRetry.

Context {S : Type}.
Variable supabase : SupabaseClient S.
Variable params : VideoAnalysisParams.
Variable maxRetries retryDelayMs : Z.

(** The body of the [for] loop: the [try] block and its [catch]. *)
Definition attempt_body (attempt : Z) : M S (loop_signal SaveResult.t) :=
  try_catch
    (r <- await (EvRpc "insert_video_analysis_server" (rpc_args_of params))
            (rpc supabase "insert_video_analysis_server" (rpc_args_of params)) ;;
     match error r with
     | Some error => throw error
     | None =>
         ret (Return {| SaveResult.success := true;
                        SaveResult.videoId := data r;
                        SaveResult.error := None;
                        SaveResult.retriedCount := attempt |})
     end)
    (fun err =>
       let errorMessage := errorMessage_of err in
       if isRetryableError errorMessage && (attempt <? maxRetries - 1) then
         emit (EvConsoleWarn
                 [LText "[saveVideoAnalysis] Attempt "; LNum (attempt + 1);
                  LText "/"; LNum maxRetries;
                  LText " failed with retryable error, retrying in ";
                  LNum (retryDelayMs * (attempt + 1)); LText "ms:";
                  LText errorMessage]) ;;
         emit (EvTimeout (retryDelayMs * (attempt + 1))) ;;
         ret NextIteration                       (* continue *)
       else
         emit (EvConsoleError
                 [LText "[saveVideoAnalysis] Attempt "; LNum (attempt + 1);
                  LText "/"; LNum maxRetries; LText " failed (final):";
                  LThrown err]) ;;
         ret NextIteration).                     (* end of the loop body *)

(** [for (let attempt = ...; attempt < maxRetries; attempt++) { ... }]
    followed by the final [return]. *)
Fixpoint attempts_from (fuel : nat) (attempt : Z) : M S SaveResult.t :=
  if attempt <? maxRetries then
    match fuel with
    | O => out_of_fuel
    | Datatypes.S fuel' =>
        sig <- attempt_body attempt ;;
        match sig with
        | Return result => ret result
        | NextIteration => attempts_from fuel' (attempt + 1)
        end
    end
  else
    ret {| SaveResult.success := false;
           SaveResult.videoId := None;
           SaveResult.error := Some "Max retries exceeded";
           SaveResult.retriedCount := maxRetries |}.

End SaveVideoAnalysisWithRetry.

Definition saveVideoAnalysisWithRetry {S : Type} (supabase : SupabaseClient S)
    (params : VideoAnalysisParams) (options : optional RetryOptions)
    : M S SaveResult.t :=
  let maxRetries := maxRetries_of options in
  let retryDelayMs := retryDelayMs_of options in
  attempts_from supabase params maxRetries retryDelayMs
    (Z.to_nat maxRetries) 0.

Module LinkResult.
Record t : Type := {
  linked : bool;
  videoId : option string;
  error : option string
}.
End LinkResult.

(** [ensureUserVideoLink(supabase, userId, youtubeId)].  [now] is the value
    [new Date().toISOString()] yields when the upsert row is built. *)
Definition ensureUserVideoLink {S : Type} (supabase : SupabaseClient S)
    (now : string) (userId youtubeId : string) : M S LinkResult.t :=
  try_catch
    ((* First, check if the video exists *)
     v <- await (EvSelectVideo youtubeId)
            (video_analyses_by_youtube_id supabase youtubeId) ;;
     match error v, data v with
     | None, Some video =>
         (* Check if link already exists *)
         l <- await (EvSelectLink userId (video_id_of video))
                (user_videos_by_user_and_video supabase userId (video_id_of video)) ;;
         match data l with
         | Some existingLink =>
             ret {| LinkResult.linked := true;
                    LinkResult.videoId := Some (video_id_of video);
                    LinkResult.error := None |}
         | None =>
             (* Create the missing link *)
             let values := {| lv_user_id := userId;
                              lv_video_id := video_id_of video;
                              lv_accessed_at := now |} in
             u <- await (EvUpsertLink values "user_id,video_id")
                    (user_videos_upsert supabase values "user_id,video_id") ;;
             match error u with
             | Some insertError =>
                 emit (EvConsoleError
                         [LText "[ensureUserVideoLink] Failed to create link:";
                          LThrown insertError]) ;;
                 ret {| LinkResult.linked := false;
                        LinkResult.videoId := Some (video_id_of video);
                        LinkResult.error := Some (message insertError) |}
             | None =>
                 ret {| LinkResult.linked := true;
                        LinkResult.videoId := Some (video_id_of video);
                        LinkResult.error := None |}
             end
         end
     | _, _ =>                                   (* videoError || !video *)
         ret {| LinkResult.linked := false;
                LinkResult.videoId := None;
                LinkResult.error := Some "Video not found" |}
     end)
    (fun err =>
       let errorMessage := errorMessage_of err in
       emit (EvConsoleError
               [LText "[ensureUserVideoLink] Unexpected error:"; LThrown err]) ;;
       ret {| LinkResult.linked := false;
              LinkResult.videoId := None;
              LinkResult.error := Some errorMessage |}).

(* ================================================================== *)
(** ** app/api/verify-video-link/route.ts *)

Record NextResponse : Type := {
  status : Z;
  body : json
}.

(** [NextResponse.json(body, { status })]; the status defaults to 200. *)
Definition NextResponse_json (body : json) (init : optional Z) : NextResponse :=
  {| status := nullish init 200; body := body |}.

(** The request, as far as the handler looks at it: what [req.json()]
    settles to. *)
Record NextRequest (S : Type) : Type := {
  req_json : S -> awaited json * S
}.
Arguments req_json {S} _ _.

(** Property lookup in a parsed JSON object; [JSON.parse] keeps the last
    of several equal keys. *)
Fixpoint get_property (fields : list (string * json)) (key : string) : optional json :=
  match fields with
  | [] => Undefined
  | (k, v) :: rest =>
      match get_property rest key with
      | Defined v' => Defined v'
      | Undefined => if String.eqb k key then Defined v else Undefined
      end
  end.

(** [const { videoId } = body]: destructuring [null] throws a [TypeError],
    any other primitive or an array has no such property. *)
Definition destructure_videoId {S : Type} (body : json) : M S (optional json) :=
  match body with
  | JNull =>
      throw {| instanceof_Error := true;
               message := "Cannot destructure property 'videoId' of null";
               String_of := "TypeError: Cannot destructure property 'videoId' of null" |}
  | JObject fields => ret (get_property fields "videoId")
  | _ => ret Undefined
  end.

(** [!v] *)
Definition falsy (v : optional json) : bool :=
  match v with
  | Undefined => true
  | Defined JNull => true
  | Defined (JBool b) => negb b
  | Defined (JNumber n) => n =? 0
  | Defined (JString s) => negb (truthy_string s)
  | Defined (JArray _) => false
  | Defined (JObject _) => false
  end.

(** [typeof v !== 'string'] *)
Definition typeof_not_string (v : optional json) : bool :=
  match v with
  | Defined (JString _) => false
  | _ => true
  end.

(** The string behind a value already known to be one. *)
Definition as_string (v : optional json) : string :=
  match v with
  | Defined (JString s) => s
  | _ => ""
  end.

Definition json_of_option_string (o : option string) : json :=
  match o with
  | Some s => JString s
  | None => JNull
  end.

(** [result.error && !result.linked] *)
Definition link_failed (result : LinkResult.t) : bool :=
  match LinkResult.error result with
  | Some e => truthy_string e
  | None => false
  end && negb (LinkResult.linked result).

Section Handler.

Context {S : Type}.
(** [createClient()] of [@/lib/supabase/server]. *)
Variable createClient : S -> awaited (SupabaseClient S) * S.
Variable now : string.

Definition handler (req : NextRequest S) : M S NextResponse :=
  try_catch
    (parsed <- await EvRequestJson (req_json req) ;;
     videoId <- destructure_videoId parsed ;;
     if falsy videoId || typeof_not_string videoId then
       ret (NextResponse_json
              (JObject [("error", JString "videoId is required")]) (Defined 400))
     else
       supabase <- await EvCreateClient createClient ;;
       user <- await EvGetUser (auth_getUser supabase) ;;
       match user with
       | None =>
           ret (NextResponse_json
                  (JObject [("error", JString "Authentication required")])
                  (Defined 401))
       | Some user =>
           result <- ensureUserVideoLink supabase now (user_id_of user)
                       (as_string videoId) ;;
           if link_failed result then
             emit (EvConsoleError
                     [LText "[verify-video-link] Failed to link video ";
                      LText (as_string videoId); LText " for user ";
                      LText (user_id_of user); LText ":";
                      LText (match LinkResult.error result with
                             | Some e => e
                             | None => ""
                             end)]) ;;
             ret (NextResponse_json
                    (JObject [("linked", JBool false);
                              ("error", json_of_option_string (LinkResult.error result))])
                    (Defined 500))
           else
             ret (NextResponse_json
                    (JObject [("linked", JBool (LinkResult.linked result));
                              ("videoId", json_of_option_string (LinkResult.videoId result))])
                    Undefined)
       end)
    (fun error =>
       emit (EvConsoleError
               [LText "[verify-video-link] Unexpected error:"; LThrown error]) ;;
       ret (NextResponse_json
              (JObject [("error", JString "Failed to verify video link")])
              (Defined 500))).

End Handler.

(* ================================================================== *)
(** ** The data store *)

(** Modelled from the spec: the table definitions are not part of the
    sources at hand.  Section 6 of the specification and the statements
    that use the tables give the columns: [video_analyses (id, youtube_id)],
    [profiles (id)], [video_generations (user_id, youtube_id, created_at)]
    and [user_videos (id, user_id, video_id, accessed_at)], with a unique
    constraint on [user_videos (user_id, video_id)] and the foreign key
    [user_videos_user_id_fkey] from [user_videos.user_id] to [profiles.id].
    Row-level security is left out: every query sees every row. *)
Module Store.

Record Profile : Type := { profile_id : string }.

Record VideoAnalysis : Type := {
  va_id : string;
  va_youtube_id : string
}.

Record VideoGeneration : Type := {
  vg_user_id : option string;          (* nullable *)
  vg_youtube_id : string;
  vg_created_at : string
}.

Record UserVideo : Type := {
  uv_id : nat;                         (* surrogate key *)
  uv_user_id : string;
  uv_video_id : string;
  uv_accessed_at : string
}.

(** Modelled from the spec: the four tables of the schema, which is not
    among the sources; see the head of this module for the columns and
    the constraints. *)
Record Db : Type := {
  profiles : list Profile;
  video_analyses : list VideoAnalysis;
  video_generations : list VideoGeneration;
  user_videos : list UserVideo;
  next_uv_id : nat;                    (* generator of [user_videos.id] *)
  session_user : option User           (* whom [auth.getUser()] resolves *)
}.

Definition with_user_videos (db : Db) (rows : list UserVideo) (next : nat) : Db :=
  {| profiles := profiles db;
     video_analyses := video_analyses db;
     video_generations := video_generations db;
     user_videos := rows;
     next_uv_id := next;
     session_user := session_user db |}.

Definition has_profile (db : Db) (user : string) : bool :=
  existsb (fun p => String.eqb (profile_id p) user) (profiles db).

(** [uv.user_id = user AND uv.video_id = video] *)
Definition links (user video : string) (uv : UserVideo) : bool :=
  String.eqb (uv_user_id uv) user && String.eqb (uv_video_id uv) video.

Definition links_of (db : Db) (user video : string) : list UserVideo :=
  filter (links user video) (user_videos db).

Definition videos_of (db : Db) (youtube_id : string) : list VideoAnalysis :=
  filter (fun va => String.eqb (va_youtube_id va) youtube_id) (video_analyses db).

(** The unique constraint on [user_videos (user_id, video_id)]. *)
Definition links_unique (db : Db) : Prop :=
  NoDup (map (fun uv => (uv_user_id uv, uv_video_id uv)) (user_videos db)).

(** PostgREST's answer when [.single()] does not see exactly one row. *)
Definition PGRST116 : thrown :=
  PostgrestError "JSON object requested, multiple (or no) rows returned".

(** [.single()] *)
Definition single {A B : Type} (f : A -> B) (rows : list A) : Response B :=
  match rows with
  | [row] => {| data := Some (f row); error := None |}
  | _ => {| data := None; error := Some PGRST116 |}
  end.

(** PostgreSQL error 23503 on [user_videos.user_id]. *)
Definition fk_violation : thrown :=
  PostgrestError
    "insert or update on table user_videos violates foreign key constraint user_videos_user_id_fkey".

(** PostgreSQL error 42P10: the conflict target names no unique index. *)
Definition no_conflict_target : thrown :=
  PostgrestError
    "there is no unique or exclusion constraint matching the ON CONFLICT specification".

(** The row an insert appends; its key comes from the generator. *)
Definition new_link (db : Db) (user video accessed_at : string) : UserVideo :=
  {| uv_id := next_uv_id db;
     uv_user_id := user;
     uv_video_id := video;
     uv_accessed_at := accessed_at |}.

(** [INSERT ... ON CONFLICT (user_id, video_id) DO UPDATE SET ...]: what
    [.upsert(values, { onConflict: 'user_id,video_id' })] sends, as
    [ignoreDuplicates] is left at its default. *)
Definition upsert (values : LinkValues) (onConflict : string) (db : Db)
    : Response unit * Db :=
  if negb (String.eqb onConflict "user_id,video_id") then
    ({| data := None; error := Some no_conflict_target |}, db)
  else if existsb (links (lv_user_id values) (lv_video_id values)) (user_videos db) then
    (* conflict: the row of the pair takes the new values; its key columns
       stay as they are *)
    ({| data := None; error := None |},
     with_user_videos db
       (map (fun uv =>
               if links (lv_user_id values) (lv_video_id values) uv then
                 {| uv_id := uv_id uv;
                    uv_user_id := lv_user_id values;
                    uv_video_id := lv_video_id values;
                    uv_accessed_at := lv_accessed_at values |}
               else uv)
            (user_videos db))
       (next_uv_id db))
  else if negb (has_profile db (lv_user_id values)) then
    ({| data := None; error := Some fk_violation |}, db)
  else
    ({| data := None; error := None |},
     with_user_videos db
       (user_videos db ++
        [new_link db (lv_user_id values) (lv_video_id values)
           (lv_accessed_at values)])%list
       (Datatypes.S (next_uv_id db))).

(** A client in front of the store.  The stored procedures behind
    [supabase.rpc] are a parameter. *)
Definition client
    (procedures : string -> RpcArgs -> Db -> awaited (Response string) * Db)
    : SupabaseClient Db :=
  {| rpc := procedures;
     video_analyses_by_youtube_id := fun youtube_id db =>
       (Resolved (single (fun va => {| video_id_of := va_id va |})
                    (videos_of db youtube_id)), db);
     user_videos_by_user_and_video := fun user video db =>
       (Resolved (single (fun uv => {| link_id_of := uv_id uv |})
                    (links_of db user video)), db);
     user_videos_upsert := fun values onConflict db =>
       let (r, db') := upsert values onConflict db in (Resolved r, db');
     auth_getUser := fun db => (Resolved (session_user db), db) |}.

End Store.

(* ================================================================== *)
(** ** supabase/migrations/20260122120000_fix_missing_user_videos.sql *)

Module Migration.

Import Store.

(** [a = b] for a nullable [a]: a comparison with NULL never holds. *)
Definition sql_eq (a : option string) (b : string) : bool :=
  match a with
  | Some x => String.eqb x b
  | None => false
  end.

Definition is_not_null {A : Type} (a : option A) : bool :=
  match a with
  | Some _ => true
  | None => false
  end.

Definition is_null {A : Type} (a : option A) : bool := negb (is_not_null a).

(** A row of the [FROM] clause; the [LEFT JOIN] side may be all NULL. *)
Record Joined : Type := {
  vg : VideoGeneration;
  va : VideoAnalysis;
  p : Profile;
  uv : option UserVideo
}.

(** [LEFT JOIN user_videos uv ON uv.user_id = vg.user_id AND uv.video_id = va.id] *)
Definition left_join_user_videos (db : Db) (g : VideoGeneration)
    (a : VideoAnalysis) (pr : Profile) : list Joined :=
  match filter (fun l => sql_eq (vg_user_id g) (uv_user_id l) &&
                         String.eqb (uv_video_id l) (va_id a))
               (user_videos db) with
  | [] => [{| vg := g; va := a; p := pr; uv := None |}]
  | matches => map (fun l => {| vg := g; va := a; p := pr; uv := Some l |}) matches
  end.

(** [FROM video_generations vg JOIN video_analyses va ON ... JOIN profiles p
    ON ... LEFT JOIN user_videos uv ON ...] *)
Definition from_clause (db : Db) : list Joined :=
  flat_map (fun g =>
    flat_map (fun a =>
      flat_map (fun pr => left_join_user_videos db g a pr)
        (filter (fun pr => sql_eq (vg_user_id g) (profile_id pr)) (profiles db)))
      (filter (fun a => String.eqb (va_youtube_id a) (vg_youtube_id g))
         (video_analyses db)))
    (video_generations db).

(** [WHERE vg.user_id IS NOT NULL AND va.id IS NOT NULL AND uv.id IS NULL];
    [va.id] and [uv.id] are keys, NULL only on the padded side of the
    left join. *)
Definition where_clause (j : Joined) : bool :=
  is_not_null (vg_user_id (vg j)) &&
  is_not_null (Some (va_id (va j))) &&
  is_null (option_map uv_id (uv j)).

(** A row to insert: [(user_id, video_id, accessed_at)]. *)
Definition Candidate : Type := (string * string * string)%type.

Definition candidate_eq_dec (x y : Candidate) : {x = y} + {x <> y}.
Proof. repeat decide equality. Defined.

(** [SELECT vg.user_id, va.id AS video_id, vg.created_at AS accessed_at];
    past the [WHERE] clause [vg.user_id] is not NULL. *)
Definition select_list (j : Joined) : list Candidate :=
  match vg_user_id (vg j) with
  | Some user => [(user, va_id (va j), vg_created_at (vg j))]
  | None => []
  end.

(** [SELECT DISTINCT ... FROM ... WHERE ...] *)
Definition select_distinct (db : Db) : list Candidate :=
  nodup candidate_eq_dec
    (flat_map select_list (filter where_clause (from_clause db))).

(** One proposed row under [ON CONFLICT (user_id, video_id) DO NOTHING]:
    skipped when the pair is present, otherwise inserted, and the insert
    fails when the foreign key on [user_id] does not hold. *)
Definition insert_row (c : Candidate) (db : Db) : Db + thrown :=
  let '(user, video, accessed_at) := c in
  if existsb (links user video) (user_videos db) then inl db
  else if negb (has_profile db user) then inr fk_violation
  else
    inl (with_user_videos db
           (user_videos db ++ [new_link db user video accessed_at])%list
           (Datatypes.S (next_uv_id db))).

Fixpoint insert_rows (rows : list Candidate) (db : Db) : Db + thrown :=
  match rows with
  | [] => inl db
  | c :: rest =>
      match insert_row c db with
      | inl db' => insert_rows rest db'
      | inr e => inr e
      end
  end.

(** The whole statement; the [SELECT] reads the state before any insert.
    An error aborts the statement and leaves the store as it was. *)
Definition fix_missing_user_videos (db : Db) : Db + thrown :=
  insert_rows (select_distinct db) db.

(** The rows a run added. *)
Definition inserted (before after : Db) : list UserVideo :=
  skipn (List.length (user_videos before)) (user_videos after).

(** A later state of the store that differs by appended link rows only,
    all of them for users with a profile. *)
Definition extends (db db' : Db) : Prop :=
  profiles db' = profiles db /\
  video_analyses db' = video_analyses db /\
  video_generations db' = video_generations db /\
  session_user db' = session_user db /\
  exists new,
    user_videos db' = (user_videos db ++ new)%list /\
    Forall (fun row => has_profile db (uv_user_id row) = true) new.

End Migration.

(* ================================================================== *)
(** ** A remote end that follows a script *)

(** In one run the remote procedure is called once per attempt, so all a
    run can see of the remote end is the sequence of its answers.
    [scripted script] answers the call number [n] (counting from 0) with
    [script n]; its state is the number of calls received so far.  It
    serves no table and no session. *)
Definition unavailable : thrown := Error "fetch failed".

Definition scripted (script : nat -> awaited (Response string)) : SupabaseClient nat :=
  {| rpc := fun _ _ n => (script n, Datatypes.S n);
     video_analyses_by_youtube_id := fun _ n => (Rejected unavailable, n);
     user_videos_by_user_and_video := fun _ _ n => (Rejected unavailable, n);
     user_videos_upsert := fun _ _ n => (Rejected unavailable, n);
     auth_getUser := fun n => (Rejected unavailable, n) |}.

(** The state of a client after [n] calls of the remote procedure, and
    the script it follows from a state on: its answer to each call. *)
Definition state_after {S : Type} (supabase : SupabaseClient S)
    (params : VideoAnalysisParams) (s : S) (n : nat) : S :=
  Nat.iter n
    (fun s' => snd (rpc supabase "insert_video_analysis_server" (rpc_args_of params) s'))
    s.

Definition script_of {S : Type} (supabase : SupabaseClient S)
    (params : VideoAnalysisParams) (s : S) : nat -> awaited (Response string) :=
  fun n =>
    fst (rpc supabase "insert_video_analysis_server" (rpc_args_of params)
           (state_after supabase params s n)).

(** The error an attempt ends in, if any: the [error] member of the
    response, or the rejection. *)
Definition attempt_error (answer : awaited (Response string)) : option thrown :=
  match answer with
  | Resolved r => error r
  | Rejected e => Some e
  end.

Definition attempt_data (answer : awaited (Response string)) : option string :=
  match answer with
  | Resolved r => data r
  | Rejected _ => None
  end.

Definition fails_retryable (answer : awaited (Response string)) : bool :=
  match attempt_error answer with
  | Some e => isRetryableError (errorMessage_of e)
  | None => false
  end.

Definition fails_non_retryable (answer : awaited (Response string)) : bool :=
  match attempt_error answer with
  | Some e => negb (isRetryableError (errorMessage_of e))
  | None => false
  end.

(** Reading a trace. *)
Definition is_rpc (ev : event) : bool :=
  match ev with
  | EvRpc _ _ => true
  | _ => false
  end.

Definition rpc_calls (tr : list event) : nat := List.length (filter is_rpc tr).

Fixpoint scheduled_delays (tr : list event) : list Z :=
  match tr with
  | [] => []
  | EvTimeout ms :: rest => ms :: scheduled_delays rest
  | _ :: rest => scheduled_delays rest
  end.

Definition total (delays : list Z) : Z := fold_right Z.add 0 delays.

(** [1 + 2 + ... + n] *)
Definition sum_1_to (n : Z) : Z :=
  total (map Z.of_nat (seq 1 (Z.to_nat n))).

(** The result returned after the loop. *)
Definition exhausted (maxRetries : Z) : SaveResult.t :=
  {| SaveResult.success := false;
     SaveResult.videoId := None;
     SaveResult.error := Some "Max retries exceeded";
     SaveResult.retriedCount := maxRetries |}.

(** What the [catch] clause of attempt [attempt] adds to the trace. *)
Definition catch_events (maxRetries retryDelayMs attempt : Z) (err : thrown)
    : list event :=
  if isRetryableError (errorMessage_of err) && (attempt <? maxRetries - 1) then
    [EvConsoleWarn
       [LText "[saveVideoAnalysis] Attempt "; LNum (attempt + 1);
        LText "/"; LNum maxRetries;
        LText " failed with retryable error, retrying in ";
        LNum (retryDelayMs * (attempt + 1)); LText "ms:";
        LText (errorMessage_of err)];
     EvTimeout (retryDelayMs * (attempt + 1))]
  else
    [EvConsoleError
       [LText "[saveVideoAnalysis] Attempt "; LNum (attempt + 1);
        LText "/"; LNum maxRetries; LText " failed (final):";
        LThrown err]].


(* ================================================================== *)
(** ** Sample data and readings used in the statements *)

(** The timer delays of the attempts [n, n + m), read off the script. *)
Definition delays_from (script : nat -> awaited (Response string))
    (maxRetries retryDelayMs : Z) (n m : nat) : list Z :=
  flat_map (fun j =>
              match attempt_error (script j) with
              | Some err =>
                  scheduled_delays
                    (catch_events maxRetries retryDelayMs (Z.of_nat j) err)
              | None => []
              end)
           (seq n m).

Definition sample_params : VideoAnalysisParams :=
  {| youtubeId := "dQw4w9WgXcQ";
     title := "A video";
     author := None;
     duration := 212;
     thumbnailUrl := None;
     transcript := JArray [];
     topics := JArray [];
     summary := Undefined;
     suggestedQuestions := Undefined;
     modelUsed := Undefined;
     userId := Defined (Some "user-1");
     language := Undefined;
     availableLanguages := Undefined |}.

(** Three answers of the remote procedure: an error without any of the
    markers, the foreign-key violation of a profile that is not there yet,
    and a success. *)
Definition permission_denied : awaited (Response string) :=
  Resolved
    {| data := None;
       error := Some (PostgrestError
                        "permission denied for function insert_video_analysis_server") |}.

Definition profile_not_ready : awaited (Response string) :=
  Resolved {| data := None; error := Some Store.fk_violation |}.

Definition saved (id : string) : awaited (Response string) :=
  Resolved {| data := Some id; error := None |}.

Definition succeeds_third : nat -> awaited (Response string) :=
  fun n =>
    match n with
    | O => profile_not_ready
    | Datatypes.S O => permission_denied
    | _ => saved "video-1"
    end.

(** The query builder of the client settles every request on [user_videos]
    by resolving with [{ data, error }]; a failure, a lost connection
    included, is an [error] in the response, not a rejection. *)
Definition user_videos_calls_resolve {S : Type} (supabase : SupabaseClient S) : Prop :=
  (forall user video s, exists l s',
      user_videos_by_user_and_video supabase user video s = (Resolved l, s')) /\
  (forall values onConflict s, exists u s',
      user_videos_upsert supabase values onConflict s = (Resolved u, s')).

Definition no_procedures : string -> RpcArgs -> Store.Db -> awaited (Response string) * Store.Db :=
  fun _ _ db => (Rejected unavailable, db).

(** A store with one analysed video and one user who has a profile. *)
Definition sample_db : Store.Db :=
  {| Store.profiles := [{| Store.profile_id := "user-1" |}];
     Store.video_analyses :=
       [{| Store.va_id := "video-1"; Store.va_youtube_id := "dQw4w9WgXcQ" |}];
     Store.video_generations :=
       [{| Store.vg_user_id := Some "user-1";
           Store.vg_youtube_id := "dQw4w9WgXcQ";
           Store.vg_created_at := "2026-01-20T10:00:00Z" |}];
     Store.user_videos := [];
     Store.next_uv_id := 1%nat;
     Store.session_user := Some {| user_id_of := "user-1" |} |}.

(** The same store before the profile of the user is there. *)
Definition sample_db_no_profile : Store.Db :=
  {| Store.profiles := [];
     Store.video_analyses := Store.video_analyses sample_db;
     Store.video_generations := Store.video_generations sample_db;
     Store.user_videos := [];
     Store.next_uv_id := 1%nat;
     Store.session_user := Some {| user_id_of := "user-1" |} |}.

(** The record the [catch] clause of [ensureUserVideoLink] returns. *)
Definition unexpected (err : thrown) : LinkResult.t :=
  {| LinkResult.linked := false;
     LinkResult.videoId := None;
     LinkResult.error := Some (errorMessage_of err) |}.

Definition bad_request : NextResponse :=
  {| status := 400;
     body := JObject [("error", JString "videoId is required")] |}.

Definition unauthenticated : NextResponse :=
  {| status := 401;
     body := JObject [("error", JString "Authentication required")] |}.

Definition failed_to_verify : NextResponse :=
  {| status := 500;
     body := JObject [("error", JString "Failed to verify video link")] |}.

Definition link_failure (e : string) : NextResponse :=
  {| status := 500;
     body := JObject [("linked", JBool false); ("error", JString e)] |}.

Definition link_report (result : LinkResult.t) : NextResponse :=
  {| status := 200;
     body := JObject [("linked", JBool (LinkResult.linked result));
                      ("videoId", json_of_option_string (LinkResult.videoId result))] |}.

(** The [videoId] member of a parsed body that is not [null]. *)
Definition videoId_member (parsed : json) : optional json :=
  match parsed with
  | JObject fields => get_property fields "videoId"
  | _ => Undefined
  end.

(** A request whose body parses to [parsed]. *)
Definition request_with {S : Type} (parsed : json) : NextRequest S :=
  {| req_json := fun s => (Resolved parsed, s) |}.

Definition store_createClient : Store.Db -> awaited (SupabaseClient Store.Db) * Store.Db :=
  fun db => (Resolved (Store.client no_procedures), db).

(** What the handler answers once the guard on [videoId] is passed, from
    the state [s1] and the trace [tr3] in which the linking primitive is
    entered: 500 (generic) when [createClient] or [getUser] rejects, 401
    without a user, 500 with the error when the primitive reports a
    non-empty error and [linked: false], 200 with [{linked, videoId}] when
    it reports [linked: true] or no error. *)
Definition responds_after_guard {S : Type}
    (createClient : S -> awaited (SupabaseClient S) * S) (now : string)
    (s1 : S) (tr3 : list event) (id : string) (resp : NextResponse) : Prop :=
  match createClient s1 with
  | (Rejected _, _) => resp = failed_to_verify
  | (Resolved supabase, s2) =>
      match auth_getUser supabase s2 with
      | (Rejected _, _) => resp = failed_to_verify
      | (Resolved None, _) => resp = unauthenticated
      | (Resolved (Some user), s3) =>
          exists (result : LinkResult.t) (w3 : world S),
            ensureUserVideoLink supabase now (user_id_of user) id (s3, tr3)
            = (Normal result, w3) /\
            (LinkResult.linked result = false ->
             forall e, LinkResult.error result = Some e -> e <> "" ->
                       resp = link_failure e) /\
            (LinkResult.linked result = true \/ LinkResult.error result = None ->
             resp = link_report result)
      end
  end.

(* ================================================================== *)
(** ** The [SuggestedQuestions] component *)

Module Component.

(** Properties for the [SuggestedQuestions] component.  [R] is what a call
    of the click callback amounts to. *)
Record SuggestedQuestionsProps (R : Type) : Type := {
  questions : list string;
  onQuestionClick : string -> nat -> R;
  isLoading : optional bool;
  isChatLoading : optional bool
}.
Arguments questions {R} _.
Arguments onQuestionClick {R} _ _ _.
Arguments isLoading {R} _.
Arguments isChatLoading {R} _.

(** A [<Button ...>{children}</Button>] element. *)
Record ButtonElement (R : Type) : Type := {
  key : string;
  variant : string;
  size : string;
  className : string;
  onClick : unit -> R;
  disabled : bool;
  children : string
}.
Arguments key {R} _.
Arguments variant {R} _.
Arguments size {R} _.
Arguments className {R} _.
Arguments onClick {R} _ _.
Arguments disabled {R} _.
Arguments children {R} _.

(** The [<div className=...>] around the buttons. *)
Record DivElement (R : Type) : Type := {
  div_className : string;
  div_children : list (ButtonElement R)
}.
Arguments div_className {R} _.
Arguments div_children {R} _.

(** [String(idx)] for an array index: its decimal digits. *)
Definition String_of_index (idx : nat) : string :=
  NilEmpty.string_of_uint (Nat.to_uint idx).

(** [array.map((x, idx) => f x idx)], counting from [start]. *)
Fixpoint map_from {A B : Type} (f : A -> nat -> B) (start : nat) (l : list A) : list B :=
  match l with
  | [] => []
  | x :: rest => f x start :: map_from f (Datatypes.S start) rest
  end.

Definition Array_map {A B : Type} (f : A -> nat -> B) (l : list A) : list B :=
  map_from f 0 l.

(** [SuggestedQuestions({ questions, onQuestionClick, isChatLoading = false })];
    [None] is the [null] returned for an empty list. *)
Definition SuggestedQuestions {R : Type} (props : SuggestedQuestionsProps R)
    : option (DivElement R) :=
  let isChatLoading := nullish (isChatLoading props) false in
  if (List.length (questions props) =? 0)%nat then None
  else
    Some
      {| div_className := "flex w-full flex-col items-end gap-2";
         div_children :=
           Array_map
             (fun question idx =>
                {| key := question ++ "-" ++ String_of_index idx;
                   variant := "pill";
                   size := "sm";
                   className := "self-end w-fit h-auto max-w-full sm:max-w-[80%] justify-start text-left whitespace-normal break-words leading-snug py-2 px-4 transition-colors hover:bg-neutral-100";
                   onClick := fun _ => onQuestionClick props question idx;
                   disabled := isChatLoading;
                   children := question |})
             (questions props) |}.

(** The part of a string after its last ['-'], if it has one. *)
Fixpoint after_last_dash (s : string) : option string :=
  match s with
  | EmptyString => None
  | String c rest =>
      match after_last_dash rest with
      | Some tail => Some tail
      | None => if Ascii.eqb c "-" then Some rest else None
      end
  end.

End Component.

(* ================================================================== *)
(** ** Further readings of traces and stores *)

(** The calls and the timers of a trace, in the order they happen. *)
Inductive step : Type :=
| Call
| Wait (ms : Z).

Fixpoint steps (tr : list event) : list step :=
  match tr with
  | [] => []
  | EvRpc _ _ :: rest => Call :: steps rest
  | EvTimeout ms :: rest => Wait ms :: steps rest
  | _ :: rest => steps rest
  end.

(** The timer that follows the attempt of index [j], if any: one of
    [retryDelayMs * (j + 1)] when the attempt is not the last one and the
    text the [catch] clause tests, [err.message] for an instance of [Error]
    and [String(err)] for any other value, contains a marker. *)
Definition timer_after (script : nat -> awaited (Response string))
    (maxRetries retryDelayMs : Z) (j : nat) : list step :=
  match attempt_error (script j) with
  | Some err =>
      if isRetryableError
           (if instanceof_Error err then message err else String_of err)
         && (Z.of_nat j <? maxRetries - 1)
      then [Wait (retryDelayMs * (Z.of_nat j + 1))]
      else []
  | None => []
  end.

(** A call for each of the attempts [n, n + m), each followed by its
    timer. *)
Definition failing_steps (script : nat -> awaited (Response string))
    (maxRetries retryDelayMs : Z) (n m : nat) : list step :=
  flat_map (fun j => Call :: timer_after script maxRetries retryDelayMs j) (seq n m).

(** The events a run of [saveVideoAnalysisWithRetry] may add to the trace:
    calls of the one remote procedure with the arguments built from
    [params], console lines, and timers of [retryDelayMs * (i + 1)] for an
    attempt index [i] that is not the last one. *)
Definition retry_event_ok (params : VideoAnalysisParams)
    (maxRetries retryDelayMs : Z) (ev : event) : Prop :=
  match ev with
  | EvRpc fn args =>
      fn = "insert_video_analysis_server" /\ args = rpc_args_of params
  | EvTimeout ms =>
      exists i, 0 <= i < maxRetries - 1 /\ ms = retryDelayMs * (i + 1)
  | EvConsoleWarn _ => True
  | EvConsoleError _ => True
  | _ => False
  end.

(** The request an attempt sends, field by field: the fields of [params]
    as they are, an optional field that is absent as [null]. *)
Definition sends (params : VideoAnalysisParams) (args : RpcArgs) : Prop :=
  p_youtube_id args = youtubeId params /\
  p_title args = title params /\
  p_author args = author params /\
  p_duration args = duration params /\
  p_thumbnail_url args = thumbnailUrl params /\
  p_transcript args = transcript params /\
  p_topics args = topics params /\
  p_summary args
    = match summary params with Defined v => v | Undefined => JNull end /\
  p_suggested_questions args
    = match suggestedQuestions params with Defined v => v | Undefined => JNull end /\
  p_model_used args
    = match modelUsed params with Defined m => m | Undefined => None end /\
  p_user_id args
    = match userId params with Defined u => u | Undefined => None end /\
  p_language args
    = match language params with Defined l => l | Undefined => None end /\
  p_available_languages args
    = match availableLanguages params with Defined v => v | Undefined => JNull end.

(** The events of a run, with the request spelled out: calls of the one
    remote procedure that send [params], console lines, and timers of
    [retryDelayMs * (i + 1)] for an attempt index [i] that is not the last
    one. *)
Definition retry_event_sends (params : VideoAnalysisParams)
    (maxRetries retryDelayMs : Z) (ev : event) : Prop :=
  match ev with
  | EvRpc fn args => fn = "insert_video_analysis_server" /\ sends params args
  | EvTimeout ms =>
      exists i, 0 <= i < maxRetries - 1 /\ ms = retryDelayMs * (i + 1)
  | EvConsoleWarn _ => True
  | EvConsoleError _ => True
  | _ => False
  end.

(** The sum of the timers the attempts [n, n + m) can arm at most: one
    after each of them but the last. *)
Definition delay_bound (retryDelayMs : Z) (n m : nat) : Z :=
  total (map (fun i => retryDelayMs * (Z.of_nat i + 1)) (seq n (Nat.pred m))).

(** The calls on the client among the events, console lines and timers
    left out. *)
Definition is_client_call (ev : event) : bool :=
  match ev with
  | EvRpc _ _ => true
  | EvSelectVideo _ => true
  | EvSelectLink _ _ => true
  | EvUpsertLink _ _ => true
  | EvGetUser => true
  | _ => false
  end.

Definition client_calls (tr : list event) : list event := filter is_client_call tr.

(** The pair a link row is for. *)
Definition pair_of (row : Store.UserVideo) : string * string :=
  (Store.uv_user_id row, Store.uv_video_id row).



(** Two rows for one external id. *)
Definition sample_db_duplicate_video : Store.Db :=
  {| Store.profiles := Store.profiles sample_db;
     Store.video_analyses :=
       [{| Store.va_id := "video-1"; Store.va_youtube_id := "dQw4w9WgXcQ" |};
        {| Store.va_id := "video-2"; Store.va_youtube_id := "dQw4w9WgXcQ" |}];
     Store.video_generations := [];
     Store.user_videos := [];
     Store.next_uv_id := 1%nat;
     Store.session_user := Some {| user_id_of := "user-1" |} |}.

(** The link of the sample user is there. *)
Definition sample_db_linked : Store.Db :=
  {| Store.profiles := Store.profiles sample_db;
     Store.video_analyses := Store.video_analyses sample_db;
     Store.video_generations := Store.video_generations sample_db;
     Store.user_videos :=
       [{| Store.uv_id := 1;
           Store.uv_user_id := "user-1";
           Store.uv_video_id := "video-1";
           Store.uv_accessed_at := "2026-01-20T10:00:00Z" |}];
     Store.next_uv_id := 2%nat;
     Store.session_user := Some {| user_id_of := "user-1" |} |}.

(** The console lines of the endpoint. *)
Definition link_failure_line (id : string) (user : User) (result : LinkResult.t)
    : event :=
  EvConsoleError
    [LText "[verify-video-link] Failed to link video "; LText id;
     LText " for user "; LText (user_id_of user); LText ":";
     LText (match LinkResult.error result with
            | Some e => e
            | None => ""
            end)].

Definition unexpected_line (e : thrown) : event :=
  EvConsoleError [LText "[verify-video-link] Unexpected error:"; LThrown e].

(** An event acts for a user when, if it is a call on [user_videos], it
    names that user. *)
Definition acts_for (uid : string) (ev : event) : Prop :=
  match ev with
  | EvSelectLink user _ => user = uid
  | EvUpsertLink values _ => lv_user_id values = uid
  | EvRpc _ _ => False
  | _ => True
  end.

(** Calls that read or write a table, or run a stored procedure. *)
Definition is_table_call (ev : event) : bool :=
  match ev with
  | EvRpc _ _ => true
  | EvSelectVideo _ => true
  | EvSelectLink _ _ => true
  | EvUpsertLink _ _ => true
  | _ => false
  end.

(** A store with a history: two events for one missing pair, an event of
    a user without profile, one without user, one for a pair that has its
    link, one for a video without analysis. *)
Definition sample_db_history : Store.Db :=
  {| Store.profiles := [{| Store.profile_id := "u1" |}; {| Store.profile_id := "u2" |}];
     Store.video_analyses :=
       [{| Store.va_id := "v1"; Store.va_youtube_id := "y1" |};
        {| Store.va_id := "v2"; Store.va_youtube_id := "y2" |}];
     Store.video_generations :=
       [{| Store.vg_user_id := Some "u1"; Store.vg_youtube_id := "y1";
           Store.vg_created_at := "2026-01-10T08:00:00Z" |};
        {| Store.vg_user_id := Some "u1"; Store.vg_youtube_id := "y1";
           Store.vg_created_at := "2026-01-11T09:00:00Z" |};
        {| Store.vg_user_id := Some "u3"; Store.vg_youtube_id := "y1";
           Store.vg_created_at := "2026-01-12T10:00:00Z" |};
        {| Store.vg_user_id := None; Store.vg_youtube_id := "y1";
           Store.vg_created_at := "2026-01-13T11:00:00Z" |};
        {| Store.vg_user_id := Some "u2"; Store.vg_youtube_id := "y2";
           Store.vg_created_at := "2026-01-14T12:00:00Z" |};
        {| Store.vg_user_id := Some "u2"; Store.vg_youtube_id := "y3";
           Store.vg_created_at := "2026-01-15T13:00:00Z" |};
        {| Store.vg_user_id := Some "u2"; Store.vg_youtube_id := "y1";
           Store.vg_created_at := "2026-01-16T14:00:00Z" |}];
     Store.user_videos :=
       [{| Store.uv_id := 0; Store.uv_user_id := "u2"; Store.uv_video_id := "v1";
           Store.uv_accessed_at := "2026-01-16T14:00:01Z" |}];
     Store.next_uv_id := 1%nat;
     Store.session_user := None |}.

(* ================================================================== *)
(** ** Lemmas on strings *)

Lemma prefix_spec (sub s : string) :
  String.prefix sub s = true <-> exists post, s = sub ++ post.
Proof.
  revert s. induction sub as [| c sub IH]; intros s.
  - split; [intros _; exists s; reflexivity | intros _; destruct s; reflexivity].
  - destruct s as [| c' s]; simpl;
      [split; [discriminate | intros [post H]; discriminate] |].
    destruct (Ascii.ascii_dec c c') as [-> | Hne].
    + rewrite IH. split; intros [post H]; exists post; congruence.
    + split; [discriminate | intros [post H]; congruence].
Qed.

Lemma append_assoc (a b c : string) : (a ++ b) ++ c = a ++ b ++ c.
Proof.
  induction a as [| x a IH]; simpl; [reflexivity | rewrite IH; reflexivity].
Qed.

(** [includes] finds exactly the substrings. *)
Lemma includes_spec (s sub : string) :
  includes s sub = true <-> exists pre post, s = pre ++ sub ++ post.
Proof.
  induction s as [| c s IH]; cbn [includes].
  - rewrite orb_false_r, prefix_spec. split.
    + intros [post H]. exists "", post. exact H.
    + intros [pre [post H]]. destruct pre; [exists post; exact H | discriminate].
  - rewrite orb_true_iff, prefix_spec, IH. split.
    + intros [[post H] | [pre [post H]]].
      * exists "", post. exact H.
      * exists (String c pre), post. simpl. rewrite H. reflexivity.
    + intros [[| c' pre] [post H]].
      * left. exists post. exact H.
      * right. exists pre, post. simpl in H. congruence.
Qed.

(** The third marker contains the first one, so three tests decide. *)
Lemma isRetryableError_three_markers (errorMessage : string) :
  isRetryableError errorMessage =
  includes errorMessage "foreign key" ||
  includes errorMessage "profiles" ||
  includes errorMessage "user_videos_user_id_fkey".
Proof.
  unfold isRetryableError.
  destruct (includes errorMessage "foreign key") eqn:Hfk; [reflexivity |].
  destruct (includes errorMessage "violates foreign key constraint") eqn:Hviolates;
    [| destruct (includes errorMessage "profiles"); reflexivity].
  apply includes_spec in Hviolates. destruct Hviolates as [pre [post H]].
  assert (Hin : includes errorMessage "foreign key" = true).
  { apply includes_spec.
    exists (pre ++ "violates "), (" constraint" ++ post).
    rewrite H, append_assoc. reflexivity. }
  congruence.
Qed.

(* ================================================================== *)
(** ** Lemmas on the retry loop *)

Section RetryLemmas.

Context {S : Type}.
Variable supabase : SupabaseClient S.
Variable params : VideoAnalysisParams.
Variable maxRetries retryDelayMs : Z.

Let call := rpc supabase "insert_video_analysis_server" (rpc_args_of params).
Let ev := EvRpc "insert_video_analysis_server" (rpc_args_of params).

(** One turn of the loop, by the answer of the remote end. *)
Lemma attempt_body_spec (attempt : Z) (s : S) (tr : list event) :
  attempt_body supabase params maxRetries retryDelayMs attempt (s, tr) =
  let (answer, s') := call s in
  match attempt_error answer with
  | None =>
      (Normal (Return {| SaveResult.success := true;
                         SaveResult.videoId := attempt_data answer;
                         SaveResult.error := None;
                         SaveResult.retriedCount := attempt |}),
       (s', tr ++ [ev])%list)
  | Some err =>
      (Normal NextIteration,
       (s', tr ++ ev :: catch_events maxRetries retryDelayMs attempt err)%list)
  end.
Proof.
  unfold attempt_body, try_catch, bind, await, catch_events, call, ev; simpl.
  destruct (rpc supabase _ _ s) as [[r | e] s']; simpl.
  - destruct (error r) as [err |]; simpl; [| reflexivity].
    unfold throw; simpl.
    destruct (isRetryableError _ && _); simpl;
      unfold emit, ret; simpl; repeat rewrite <- app_assoc; reflexivity.
  - destruct (isRetryableError _ && _); simpl;
      unfold emit, ret; simpl; repeat rewrite <- app_assoc; reflexivity.
Qed.

(** The loop has fuel enough as soon as the fuel covers the attempts left,
    and then it returns: a success, or the fixed failure record. *)
Lemma attempts_from_returns (fuel : nat) :
  forall (attempt : Z) (w : world S),
    maxRetries - attempt <= Z.of_nat fuel ->
    exists (result : SaveResult.t) (w' : world S),
      attempts_from supabase params maxRetries retryDelayMs fuel attempt w
        = (Normal result, w') /\
      (result = exhausted maxRetries \/
       (SaveResult.success result = true /\ SaveResult.error result = None)).
Proof.
  induction fuel as [| fuel IH]; intros attempt [s tr] Hfuel.
  - simpl. destruct (attempt <? maxRetries) eqn:Hlt.
    + apply Z.ltb_lt in Hlt. simpl in Hfuel. lia.
    + eexists; eexists; split; [reflexivity | left; reflexivity].
  - simpl. destruct (attempt <? maxRetries) eqn:Hlt.
    + unfold bind. rewrite attempt_body_spec.
      destruct (call s) as [answer s'].
      destruct (attempt_error answer) as [err |].
      * apply IH. lia.
      * eexists; eexists; split; [reflexivity | right; split; reflexivity].
    + eexists; eexists; split; [reflexivity | left; reflexivity].
Qed.

End RetryLemmas.

(** A run against any client is the run against the script the client
    follows: same completion, same trace, and the client has taken as many
    calls as the scripted one counts. *)
Section Simulation.

Context {S : Type}.
Variable supabase : SupabaseClient S.
Variable params : VideoAnalysisParams.
Variable maxRetries retryDelayMs : Z.
Variable s0 : S.

Lemma attempts_from_follows_script (fuel : nat) :
  forall (attempt : Z) (n : nat) (tr : list event),
    exists (r : completion SaveResult.t) (m : nat) (tr' : list event),
      attempts_from supabase params maxRetries retryDelayMs fuel attempt
        (state_after supabase params s0 n, tr)
        = (r, (state_after supabase params s0 m, tr')) /\
      attempts_from (scripted (script_of supabase params s0)) params
        maxRetries retryDelayMs fuel attempt (n, tr)
        = (r, (m, tr')).
Proof.
  induction fuel as [| fuel IH]; intros attempt n tr; simpl.
  - destruct (attempt <? maxRetries);
      eexists; exists n; eexists; split; reflexivity.
  - destruct (attempt <? maxRetries);
      [| eexists; exists n; eexists; split; reflexivity].
    unfold bind. rewrite !attempt_body_spec. simpl.
    unfold script_of at 1 2 3.
    destruct (rpc supabase "insert_video_analysis_server" (rpc_args_of params)
                (state_after supabase params s0 n)) as [answer s1] eqn:Hcall.
    assert (Hnext : s1 = state_after supabase params s0 (Datatypes.S n))
      by (simpl; rewrite Hcall; reflexivity).
    simpl. destruct (attempt_error answer) as [err |].
    + rewrite Hnext. apply IH.
    + eexists; exists (Datatypes.S n); eexists. rewrite Hnext.
      split; reflexivity.
Qed.

End Simulation.

Lemma saveVideoAnalysisWithRetry_follows_script {S : Type}
    (supabase : SupabaseClient S) (params : VideoAnalysisParams)
    (options : optional RetryOptions) (s : S) (tr : list event) :
  exists (r : completion SaveResult.t) (m : nat) (tr' : list event),
    saveVideoAnalysisWithRetry supabase params options (s, tr)
      = (r, (state_after supabase params s m, tr')) /\
    saveVideoAnalysisWithRetry (scripted (script_of supabase params s)) params
      options (0%nat, tr)
      = (r, (m, tr')).
Proof.
  unfold saveVideoAnalysisWithRetry.
  apply (attempts_from_follows_script supabase params _ _ s _ 0 0%nat tr).
Qed.

(** A scripted remote end follows its script. *)
Lemma state_after_scripted (script : nat -> awaited (Response string))
    (params : VideoAnalysisParams) (n j : nat) :
  state_after (scripted script) params n j = (j + n)%nat.
Proof.
  induction j as [| j IH]; [reflexivity |].
  unfold state_after in *. rewrite Nat.iter_succ, IH. reflexivity.
Qed.

Lemma script_of_scripted (script : nat -> awaited (Response string))
    (params : VideoAnalysisParams) (j : nat) :
  script_of (scripted script) params 0%nat j = script j.
Proof.
  unfold script_of. rewrite state_after_scripted, Nat.add_0_r. reflexivity.
Qed.

Section ScriptedLemmas.

Variable script : nat -> awaited (Response string).
Variable params : VideoAnalysisParams.
Variable maxRetries retryDelayMs : Z.

Let loop := attempts_from (scripted script) params maxRetries retryDelayMs.
Let delays_of := delays_from script maxRetries retryDelayMs.

Lemma scheduled_delays_app (tr1 tr2 : list event) :
  scheduled_delays (tr1 ++ tr2) = (scheduled_delays tr1 ++ scheduled_delays tr2)%list.
Proof.
  induction tr1 as [| e tr1 IH]; simpl; [reflexivity |].
  destruct e; simpl; rewrite IH; reflexivity.
Qed.

Lemma rpc_calls_app (tr1 tr2 : list event) :
  rpc_calls (tr1 ++ tr2) = (rpc_calls tr1 + rpc_calls tr2)%nat.
Proof.
  unfold rpc_calls. rewrite filter_app, length_app. reflexivity.
Qed.

Lemma rpc_calls_catch_events (attempt : Z) (err : thrown) :
  rpc_calls (catch_events maxRetries retryDelayMs attempt err) = 0%nat.
Proof.
  unfold catch_events. destruct (_ && _); reflexivity.
Qed.

(** Failures up to attempt [k], then a success: the loop reaches attempt
    [k] and returns its answer.  [m] counts the failures still ahead. *)
Lemma loop_first_success (k : nat) (d : option string) :
  Z.of_nat k < maxRetries ->
  attempt_error (script k) = None ->
  attempt_data (script k) = d ->
  forall (m n fuel : nat) (tr : list event),
    (n + m = k)%nat ->
    (m < fuel)%nat ->
    (forall j, (n <= j < k)%nat -> attempt_error (script j) <> None) ->
    exists tr',
      loop fuel (Z.of_nat n) (n, tr) =
        (Normal {| SaveResult.success := true;
                   SaveResult.videoId := d;
                   SaveResult.error := None;
                   SaveResult.retriedCount := Z.of_nat k |},
         (Datatypes.S k, (tr ++ tr')%list)) /\
      rpc_calls tr' = Datatypes.S m.
Proof.
  intros Hk Hok Hd m.
  induction m as [| m IH]; intros n fuel tr Hnm Hfuel Hfail.
  - replace n with k in * by lia.
    destruct fuel as [| fuel]; [lia |].
    unfold loop; simpl.
    destruct (Z.ltb_spec (Z.of_nat k) maxRetries) as [_ | Hge]; [| lia].
    unfold bind. rewrite attempt_body_spec. simpl.
    rewrite Hok, Hd. eexists; split; reflexivity.
  - destruct fuel as [| fuel]; [lia |].
    unfold loop; simpl.
    destruct (Z.ltb_spec (Z.of_nat n) maxRetries) as [_ | Hge]; [| lia].
    unfold bind. rewrite attempt_body_spec. simpl.
    destruct (attempt_error (script n)) as [err |] eqn:Herr.
    + replace (Z.of_nat n + 1) with (Z.of_nat (Datatypes.S n)) by lia.
      destruct (IH (Datatypes.S n) fuel
                  (tr ++ EvRpc "insert_video_analysis_server" (rpc_args_of params)
                        :: catch_events maxRetries retryDelayMs (Z.of_nat n) err)%list)
        as [tr' [Hrun Hcalls]]; [lia | lia | intros j Hj; apply Hfail; lia |].
      fold loop. rewrite Hrun.
      exists ([EvRpc "insert_video_analysis_server" (rpc_args_of params)]
                ++ catch_events maxRetries retryDelayMs (Z.of_nat n) err ++ tr')%list.
      split.
      * rewrite <- app_assoc. reflexivity.
      * rewrite !rpc_calls_app, rpc_calls_catch_events, Hcalls. reflexivity.
    + exfalso. apply (Hfail n); [lia | exact Herr].
Qed.

(** Failures on every attempt: the loop runs through all of them and
    returns the fixed failure record.  [m] counts the attempts left. *)
Lemma loop_all_fail :
  forall (m n fuel : nat) (tr : list event),
    m = Z.to_nat (maxRetries - Z.of_nat n) ->
    (m <= fuel)%nat ->
    (forall j, (n <= j)%nat -> Z.of_nat j < maxRetries ->
               attempt_error (script j) <> None) ->
    exists tr',
      loop fuel (Z.of_nat n) (n, tr) =
        (Normal (exhausted maxRetries), ((n + m)%nat, (tr ++ tr')%list)) /\
      rpc_calls tr' = m /\
      scheduled_delays tr' = delays_of n m.
Proof.
  induction m as [| m IH]; intros n fuel tr Hm Hfuel Hfail.
  - exists []. rewrite app_nil_r, Nat.add_0_r.
    repeat split.
    unfold loop. destruct fuel; simpl;
      destruct (Z.ltb_spec (Z.of_nat n) maxRetries); try lia; reflexivity.
  - destruct fuel as [| fuel]; [lia |].
    unfold loop; simpl.
    destruct (Z.ltb_spec (Z.of_nat n) maxRetries) as [Hlt | Hge]; [| lia].
    unfold bind. rewrite attempt_body_spec. simpl.
    destruct (attempt_error (script n)) as [err |] eqn:Herr.
    + replace (Z.of_nat n + 1) with (Z.of_nat (Datatypes.S n)) by lia.
      destruct (IH (Datatypes.S n) fuel
                  (tr ++ EvRpc "insert_video_analysis_server" (rpc_args_of params)
                        :: catch_events maxRetries retryDelayMs (Z.of_nat n) err)%list)
        as [tr' [Hrun [Hcalls Hdelays]]];
        [lia | lia | intros j Hj; apply Hfail; lia |].
      fold loop. rewrite Hrun.
      exists ([EvRpc "insert_video_analysis_server" (rpc_args_of params)]
                ++ catch_events maxRetries retryDelayMs (Z.of_nat n) err ++ tr')%list.
      repeat split.
      * rewrite <- app_assoc.
        replace (Datatypes.S n + m)%nat with (n + Datatypes.S m)%nat by lia.
        reflexivity.
      * rewrite !rpc_calls_app, rpc_calls_catch_events, Hcalls. reflexivity.
      * rewrite !scheduled_delays_app, Hdelays.
        unfold delays_of, delays_from. simpl. rewrite Herr. reflexivity.
    + exfalso. apply (Hfail n); [lia | exact Hlt | exact Herr].
Qed.

Lemma delays_from_last (n : nat) :
  Z.of_nat n = maxRetries - 1 ->
  delays_of n 1 = [].
Proof.
  intros Hn. unfold delays_of, delays_from. simpl.
  destruct (attempt_error (script n)) as [err |]; [| reflexivity].
  unfold catch_events.
  destruct (Z.ltb_spec (Z.of_nat n) (maxRetries - 1)); [lia |].
  rewrite andb_false_r. reflexivity.
Qed.

Lemma delays_from_app (n m1 m2 : nat) :
  delays_of n (m1 + m2) = (delays_of n m1 ++ delays_of (n + m1) m2)%list.
Proof.
  unfold delays_of, delays_from. rewrite seq_app, flat_map_app. reflexivity.
Qed.

End ScriptedLemmas.

Lemma total_linear (d : Z) (n a : nat) :
  total (map (fun i => d * (Z.of_nat i + 1)) (seq a n)) =
  d * total (map Z.of_nat (seq (Datatypes.S a) n)).
Proof.
  revert a. unfold total.
  induction n as [| n IH]; intros a; cbn [seq map fold_right]; [lia |].
  rewrite IH. lia.
Qed.

(** The function always returns: it neither throws nor runs out of fuel. *)
Lemma saveVideoAnalysisWithRetry_returns {S : Type} (supabase : SupabaseClient S)
    (params : VideoAnalysisParams) (options : optional RetryOptions) (w : world S) :
  exists (result : SaveResult.t) (w' : world S),
    saveVideoAnalysisWithRetry supabase params options w = (Normal result, w') /\
    (result = exhausted (maxRetries_of options) \/
     (SaveResult.success result = true /\ SaveResult.error result = None)).
Proof.
  unfold saveVideoAnalysisWithRetry. apply attempts_from_returns. lia.
Qed.

(* ================================================================== *)
(** ** Claims on [saveVideoAnalysisWithRetry] *)

(** C1 (code at the failing input).  The first attempt fails with an error
    that carries none of the markers, yet the loop goes on: the remote
    procedure is called a second time and the function returns the second
    attempt's success. *)
Theorem non_retryable_error_is_retried :
  let script := fun n => match n with O => permission_denied | _ => saved "video-1" end in
  fails_non_retryable (script 0%nat) = true /\
  exists tr,
    saveVideoAnalysisWithRetry (scripted script) sample_params Undefined (0%nat, [])
    = (Normal {| SaveResult.success := true;
                 SaveResult.videoId := Some "video-1";
                 SaveResult.error := None;
                 SaveResult.retriedCount := 1 |},
       (2%nat, tr)) /\
    rpc_calls tr = 2%nat /\
    scheduled_delays tr = [].
Proof.
  split; [reflexivity |].
  eexists. split; [vm_compute; reflexivity |]. split; reflexivity.
Qed.

(** The two cases of C4 against a scripted remote end. *)
Lemma first_success_scripted
    (script : nat -> awaited (Response string))
    (params : VideoAnalysisParams) (options : optional RetryOptions)
    (k : nat) (d : option string) :
  1 <= maxRetries_of options ->
  (Z.of_nat k < maxRetries_of options ->
   (forall j, (j < k)%nat -> attempt_error (script j) <> None) ->
   attempt_error (script k) = None ->
   attempt_data (script k) = d ->
   exists tr,
     saveVideoAnalysisWithRetry (scripted script) params options (0%nat, [])
     = (Normal {| SaveResult.success := true;
                  SaveResult.videoId := d;
                  SaveResult.error := None;
                  SaveResult.retriedCount := Z.of_nat k |},
        (Datatypes.S k, tr)) /\
     rpc_calls tr = Datatypes.S k)
  /\
  ((forall j, Z.of_nat j < maxRetries_of options ->
              attempt_error (script j) <> None) ->
   exists result tr,
     saveVideoAnalysisWithRetry (scripted script) params options (0%nat, [])
     = (Normal result, (Z.to_nat (maxRetries_of options), tr)) /\
     SaveResult.success result = false /\
     SaveResult.retriedCount result = maxRetries_of options).
Proof.
  intros Hmax. split.
  - intros Hk Hfail Hok Hd.
    destruct (loop_first_success script params (maxRetries_of options)
                (retryDelayMs_of options) k d Hk Hok Hd k 0%nat
                (Z.to_nat (maxRetries_of options)) [])
      as [tr [Hrun Hcalls]]; [lia | lia | intros j Hj; apply Hfail; lia |].
    exists tr. split; [exact Hrun | exact Hcalls].
  - intros Hfail.
    destruct (loop_all_fail script params (maxRetries_of options)
                (retryDelayMs_of options)
                (Z.to_nat (maxRetries_of options)) 0%nat
                (Z.to_nat (maxRetries_of options)) [])
      as [tr [Hrun _]]; [simpl; f_equal; lia | lia | intros j _; apply Hfail |].
    exists (exhausted (maxRetries_of options)), tr.
    split; [exact Hrun | split; reflexivity].
Qed.

(** C4.  With [maxRetries >= 1], for any client, [script_of ... j] being
    its answer to the call number [j]: if the remote call first succeeds
    on the attempt of index [k < maxRetries], the result is
    [{success: true, videoId: <the value returned>, retriedCount: k}],
    reached after exactly [k + 1] calls; if no attempt succeeds,
    [retriedCount] is [maxRetries]. *)
Theorem first_success_reports_attempt_index {S : Type}
    (supabase : SupabaseClient S) (params : VideoAnalysisParams)
    (options : optional RetryOptions) (s : S) (k : nat) (d : option string) :
  1 <= maxRetries_of options ->
  (Z.of_nat k < maxRetries_of options ->
   (forall j, (j < k)%nat ->
              attempt_error (script_of supabase params s j) <> None) ->
   attempt_error (script_of supabase params s k) = None ->
   attempt_data (script_of supabase params s k) = d ->
   exists tr,
     saveVideoAnalysisWithRetry supabase params options (s, [])
     = (Normal {| SaveResult.success := true;
                  SaveResult.videoId := d;
                  SaveResult.error := None;
                  SaveResult.retriedCount := Z.of_nat k |},
        (state_after supabase params s (Datatypes.S k), tr)) /\
     rpc_calls tr = Datatypes.S k)
  /\
  ((forall j, Z.of_nat j < maxRetries_of options ->
              attempt_error (script_of supabase params s j) <> None) ->
   exists result tr,
     saveVideoAnalysisWithRetry supabase params options (s, [])
     = (Normal result,
        (state_after supabase params s (Z.to_nat (maxRetries_of options)), tr)) /\
     SaveResult.success result = false /\
     SaveResult.retriedCount result = maxRetries_of options).
Proof.
  intros Hmax.
  destruct (saveVideoAnalysisWithRetry_follows_script supabase params options s [])
    as [r [m [tr' [Hrun Hscripted]]]].
  destruct (first_success_scripted (script_of supabase params s) params options
              k d Hmax) as [Hfirst Hnone].
  split.
  - intros Hk Hfail Hok Hd.
    destruct (Hfirst Hk Hfail Hok Hd) as [tr [Hrun' Hcalls]].
    rewrite Hrun' in Hscripted. injection Hscripted as <- <- <-.
    exists tr. split; [exact Hrun | exact Hcalls].
  - intros Hfail.
    destruct (Hnone Hfail) as [result [tr [Hrun' [Hfailed Hcount]]]].
    rewrite Hrun' in Hscripted. injection Hscripted as <- <- <-.
    exists result, tr. split; [exact Hrun | split; assumption].
Qed.

Lemma first_success_reports_attempt_index_witness :
  (exists tr,
     saveVideoAnalysisWithRetry (scripted succeeds_third) sample_params Undefined
       (0%nat, [])
     = (Normal {| SaveResult.success := true;
                  SaveResult.videoId := Some "video-1";
                  SaveResult.error := None;
                  SaveResult.retriedCount := 2 |},
        (3%nat, tr)) /\
     rpc_calls tr = 3%nat)
  /\
  (exists result tr,
     saveVideoAnalysisWithRetry (scripted (fun _ => profile_not_ready))
       sample_params Undefined (0%nat, [])
     = (Normal result, (3%nat, tr)) /\
     SaveResult.success result = false /\
     SaveResult.retriedCount result = 3).
Proof.
  split.
  - apply (first_success_reports_attempt_index (scripted succeeds_third)
             sample_params Undefined 0%nat 2 (Some "video-1")).
    + simpl; lia.
    + simpl; lia.
    + intros j Hj. rewrite script_of_scripted.
      destruct j as [| [| j]]; simpl; [discriminate | discriminate | lia].
    + reflexivity.
    + reflexivity.
  - apply (first_success_reports_attempt_index (scripted (fun _ => profile_not_ready))
             sample_params Undefined 0%nat 0 None).
    + simpl; lia.
    + intros j _. rewrite script_of_scripted. simpl. discriminate.
Defined.

(** C5 (code at the failing input).  Every attempt is answered with the
    foreign-key violation as the client delivers it, an error object whose
    message carries the markers.  The value is no instance of [Error], so
    the [catch] clause tests the text ['[object Object]'], finds no marker
    and arms no timer: the three calls follow one another at once, and the
    delays add up to 0 where the claim has [500 * (1 + 2)]. *)
Theorem fk_violation_arms_no_timer :
  (exists r err,
     profile_not_ready = Resolved r /\ error r = Some err /\
     isRetryableError (message err) = true /\
     instanceof_Error err = false /\
     errorMessage_of err = "[object Object]") /\
  exists tr,
    saveVideoAnalysisWithRetry (scripted (fun _ => profile_not_ready))
      sample_params Undefined (0%nat, [])
    = (Normal {| SaveResult.success := false;
                 SaveResult.videoId := None;
                 SaveResult.error := Some "Max retries exceeded";
                 SaveResult.retriedCount := 3 |},
       (3%nat, tr)) /\
    rpc_calls tr = 3%nat /\
    scheduled_delays tr = [] /\
    total (scheduled_delays tr) < 500 * sum_1_to (3 - 1).
Proof.
  split.
  - eexists; eexists. repeat split; reflexivity.
  - eexists. split; [vm_compute; reflexivity |]. repeat split.
Qed.

(** C9.  With [{maxRetries: 0}] the remote procedure is never called (the
    state of the client and the trace are left as they were) and the
    result is [{success: false, videoId: null, error: 'Max retries
    exceeded', retriedCount: 0}]. *)
Theorem zero_maxRetries_makes_no_call {S : Type} (supabase : SupabaseClient S)
    (params : VideoAnalysisParams) (delay : optional Z) (w : world S) :
  saveVideoAnalysisWithRetry supabase params
    (Defined {| maxRetries := Defined 0; retryDelayMs := delay |}) w
  = (Normal {| SaveResult.success := false;
               SaveResult.videoId := None;
               SaveResult.error := Some "Max retries exceeded";
               SaveResult.retriedCount := 0 |},
     w).
Proof. reflexivity. Qed.

(** C10.  Every invocation returns, and whenever the result is a failure
    its [error] is the fixed string ['Max retries exceeded'] (with
    [videoId] null and [retriedCount = maxRetries]), whatever the remote
    end answered. *)
Theorem failure_reports_fixed_error {S : Type} (supabase : SupabaseClient S)
    (params : VideoAnalysisParams) (options : optional RetryOptions)
    (w : world S) :
  exists (result : SaveResult.t) (w' : world S),
    saveVideoAnalysisWithRetry supabase params options w = (Normal result, w') /\
    (SaveResult.success result = false ->
     SaveResult.error result = Some "Max retries exceeded" /\
     SaveResult.videoId result = None /\
     SaveResult.retriedCount result = maxRetries_of options).
Proof.
  destruct (saveVideoAnalysisWithRetry_returns supabase params options w)
    as [result [w' [Hrun Hshape]]].
  exists result, w'. split; [exact Hrun |].
  intros Hfailed. destruct Hshape as [-> | [Hok _]].
  - repeat split.
  - rewrite Hok in Hfailed. discriminate.
Qed.

Lemma failure_reports_fixed_error_witness :
  exists (result : SaveResult.t) (w' : world nat),
    saveVideoAnalysisWithRetry (scripted (fun _ => permission_denied))
      sample_params Undefined (0%nat, []) = (Normal result, w') /\
    SaveResult.success result = false /\
    SaveResult.error result = Some "Max retries exceeded".
Proof.
  destruct (failure_reports_fixed_error (scripted (fun _ => permission_denied))
              sample_params Undefined (0%nat, []))
    as [result [w' [Hrun Hfixed]]].
  exists result, w'. split; [exact Hrun |].
  assert (Hfailed : SaveResult.success result = false).
  { vm_compute in Hrun. injection Hrun as <- _. reflexivity. }
  split; [exact Hfailed | apply Hfixed; exact Hfailed].
Defined.

(* ================================================================== *)
(** ** Lemmas on the store *)

Section StoreLemmas.

Import Store.

(** Under the unique constraint a pair has at most one link row. *)
Lemma links_unique_at_most_one (db : Db) (user video : string) :
  links_unique db -> (List.length (links_of db user video) <= 1)%nat.
Proof.
  unfold links_unique, links_of.
  induction (user_videos db) as [| row rows IH]; simpl; intros Hnodup; [lia |].
  inversion Hnodup as [| pair pairs Hnotin Hrest]; subst.
  destruct (links user video row) eqn:Hrow; simpl; [| apply IH; exact Hrest].
  assert (Hnone : filter (links user video) rows = []).
  { destruct (filter (links user video) rows) as [| other others] eqn:Hf;
      [reflexivity | exfalso].
    assert (Hin : In other (filter (links user video) rows))
      by (rewrite Hf; left; reflexivity).
    apply filter_In in Hin. destruct Hin as [Hin Hother].
    apply Hnotin. apply in_map_iff. exists other. split; [| exact Hin].
    unfold links in Hrow, Hother.
    apply andb_true_iff in Hrow, Hother.
    destruct Hrow as [Hu Hv], Hother as [Hu' Hv'].
    apply String.eqb_eq in Hu, Hv, Hu', Hv'. congruence. }
  rewrite Hnone. simpl. lia.
Qed.

Lemma existsb_filter_nil {A : Type} (f : A -> bool) (l : list A) :
  filter f l = [] -> existsb f l = false.
Proof.
  induction l as [| a l IH]; simpl; [reflexivity |].
  destruct (f a); [discriminate | exact IH].
Qed.

End StoreLemmas.

(* ================================================================== *)
(** ** Claims on [ensureUserVideoLink] *)

(** For any client: a lookup that resolves with an error, or without a
    row, ends the function at once; no further call is made. *)
Lemma not_found_without_row {S : Type} (supabase : SupabaseClient S)
    (now userId youtubeId : string) (s s1 : S) (tr : list event)
    (v : Response VideoRow) :
  video_analyses_by_youtube_id supabase youtubeId s = (Resolved v, s1) ->
  error v <> None \/ data v = None ->
  ensureUserVideoLink supabase now userId youtubeId (s, tr)
  = (Normal {| LinkResult.linked := false;
               LinkResult.videoId := None;
               LinkResult.error := Some "Video not found" |},
     (s1, (tr ++ [EvSelectVideo youtubeId])%list)).
Proof.
  intros Hlookup Hnone.
  unfold ensureUserVideoLink, try_catch, bind, await; simpl.
  rewrite Hlookup; simpl.
  destruct (error v) as [e |]; [reflexivity |].
  destruct (data v) as [video |]; [| reflexivity].
  destruct Hnone as [Herr | Hdata]; [contradiction | discriminate].
Qed.

(** C7.  When no [video_analyses] row has the external id, the result is
    exactly [{linked: false, videoId: null, error: 'Video not found'}], the
    store is left as it was and the only call made is the lookup. *)
Theorem absent_video_is_not_found
    (procedures : string -> RpcArgs -> Store.Db -> awaited (Response string) * Store.Db)
    (db : Store.Db) (now userId youtubeId : string) (tr : list event) :
  Store.videos_of db youtubeId = [] ->
  ensureUserVideoLink (Store.client procedures) now userId youtubeId (db, tr)
  = (Normal {| LinkResult.linked := false;
               LinkResult.videoId := None;
               LinkResult.error := Some "Video not found" |},
     (db, (tr ++ [EvSelectVideo youtubeId])%list)).
Proof.
  intros Hnone.
  apply (not_found_without_row (Store.client procedures) now userId youtubeId
           db db tr (Store.single (fun va => {| video_id_of := Store.va_id va |}) [])).
  - simpl. rewrite Hnone. reflexivity.
  - right. reflexivity.
Qed.

Lemma absent_video_is_not_found_witness :
  ensureUserVideoLink (Store.client no_procedures) "2026-01-22T12:00:00Z"
    "user-1" "unknown-id" (sample_db, [])
  = (Normal {| LinkResult.linked := false;
               LinkResult.videoId := None;
               LinkResult.error := Some "Video not found" |},
     (sample_db, [EvSelectVideo "unknown-id"])).
Proof.
  apply (absent_video_is_not_found no_procedures sample_db
           "2026-01-22T12:00:00Z" "user-1" "unknown-id" []).
  reflexivity.
Defined.

(** [ensureUserVideoLink] always returns: every rejection is caught. *)
Lemma ensureUserVideoLink_returns {S : Type} (supabase : SupabaseClient S)
    (now userId youtubeId : string) (w : world S) :
  exists (result : LinkResult.t) (w' : world S),
    ensureUserVideoLink supabase now userId youtubeId w = (Normal result, w').
Proof.
  destruct w as [s tr].
  unfold ensureUserVideoLink, try_catch, bind, await, emit, ret; simpl.
  destruct (video_analyses_by_youtube_id supabase youtubeId s) as [[v | e] s1];
    simpl; [| eexists; eexists; reflexivity].
  destruct (error v); [eexists; eexists; reflexivity |].
  destruct (data v) as [video |]; simpl; [| eexists; eexists; reflexivity].
  destruct (user_videos_by_user_and_video supabase userId (video_id_of video) s1)
    as [[l | e] s2]; simpl; [| eexists; eexists; reflexivity].
  destruct (data l); simpl; [eexists; eexists; reflexivity |].
  destruct (user_videos_upsert supabase _ _ s2) as [[u | e] s3]; simpl;
    [| eexists; eexists; reflexivity].
  destruct (error u); eexists; eexists; reflexivity.
Qed.

(** When the lookup resolves with a video, the function returns, and its
    result is decided by the two calls on [user_videos]:
    - the link query resolves with a row: [{linked: true, videoId: id}];
    - it resolves with none and the upsert resolves without error:
      [{linked: true, videoId: id}];
    - the upsert resolves with an error: [{linked: false, videoId: id,
      error: <its message>}];
    - the link query or the upsert rejects: the [catch] clause returns
      [{linked: false, videoId: null, error: <the message>}].
    So [videoId] is the internal id on every outcome in which no call
    throws, a failed upsert included. *)
Lemma link_result_by_cases {S : Type}
    (supabase : SupabaseClient S) (now userId youtubeId : string)
    (s s1 : S) (tr : list event) (v : Response VideoRow) (video : VideoRow) :
  video_analyses_by_youtube_id supabase youtubeId s = (Resolved v, s1) ->
  error v = None ->
  data v = Some video ->
  exists (result : LinkResult.t) (w' : world S),
    ensureUserVideoLink supabase now userId youtubeId (s, tr) = (Normal result, w') /\
    match user_videos_by_user_and_video supabase userId (video_id_of video) s1 with
    | (Rejected e, _) => result = unexpected e
    | (Resolved l, s2) =>
        match data l with
        | Some _ =>
            result = {| LinkResult.linked := true;
                        LinkResult.videoId := Some (video_id_of video);
                        LinkResult.error := None |}
        | None =>
            match user_videos_upsert supabase
                    {| lv_user_id := userId;
                       lv_video_id := video_id_of video;
                       lv_accessed_at := now |} "user_id,video_id" s2 with
            | (Rejected e, _) => result = unexpected e
            | (Resolved u, _) =>
                LinkResult.videoId result = Some (video_id_of video) /\
                match error u with
                | Some insertError =>
                    LinkResult.linked result = false /\
                    LinkResult.error result = Some (message insertError)
                | None =>
                    LinkResult.linked result = true /\
                    LinkResult.error result = None
                end
            end
        end
    end.
Proof.
  intros Hlookup Herr Hdata.
  unfold ensureUserVideoLink, try_catch, bind, await, emit, ret; simpl.
  rewrite Hlookup; simpl. rewrite Herr, Hdata; simpl.
  destruct (user_videos_by_user_and_video supabase userId (video_id_of video) s1)
    as [[l | e] s2]; simpl; [| eexists; eexists; split; reflexivity].
  destruct (data l); simpl; [eexists; eexists; split; reflexivity |].
  destruct (user_videos_upsert supabase _ _ s2) as [[u | e] s3]; simpl;
    [| eexists; eexists; split; reflexivity].
  destruct (error u); eexists; eexists; (split; [reflexivity |]);
    simpl; repeat split.
Qed.

(** The upsert is refused by the foreign key, and the id is still returned. *)
Lemma store_calls_resolve
    (procedures : string -> RpcArgs -> Store.Db -> awaited (Response string) * Store.Db) :
  user_videos_calls_resolve (Store.client procedures).
Proof.
  split.
  - intros user video db. eexists; eexists. reflexivity.
  - intros values onConflict db. simpl.
    destruct (Store.upsert values onConflict db) as [r db'].
    eexists; eexists. reflexivity.
Qed.

(** C2.  For a client whose calls on [user_videos] resolve: when the
    lookup by external id resolves with a video, the function returns and
    the [videoId] of the result is the internal id of the video on every
    outcome; in particular, when the upsert resolves with an error, the
    result is [linked: false] with that id and the message of the error. *)
Theorem videoId_returned_on_every_outcome {S : Type}
    (supabase : SupabaseClient S) (now userId youtubeId : string)
    (s s1 : S) (tr : list event) (v : Response VideoRow) (video : VideoRow) :
  user_videos_calls_resolve supabase ->
  video_analyses_by_youtube_id supabase youtubeId s = (Resolved v, s1) ->
  error v = None ->
  data v = Some video ->
  exists (result : LinkResult.t) (w' : world S),
    ensureUserVideoLink supabase now userId youtubeId (s, tr) = (Normal result, w') /\
    LinkResult.videoId result = Some (video_id_of video) /\
    forall l s2 u s3 insertError,
      user_videos_by_user_and_video supabase userId (video_id_of video) s1
        = (Resolved l, s2) ->
      data l = None ->
      user_videos_upsert supabase
        {| lv_user_id := userId;
           lv_video_id := video_id_of video;
           lv_accessed_at := now |} "user_id,video_id" s2
        = (Resolved u, s3) ->
      error u = Some insertError ->
      LinkResult.linked result = false /\
      LinkResult.error result = Some (message insertError).
Proof.
  intros [Hquery Hupsert] Hlookup Herr Hdata.
  destruct (link_result_by_cases supabase now userId youtubeId s s1 tr v video
              Hlookup Herr Hdata) as [result [w' [Hrun Hcases]]].
  exists result, w'. split; [exact Hrun |].
  destruct (Hquery userId (video_id_of video) s1) as [l [s2 Hl]].
  rewrite Hl in Hcases.
  destruct (data l) as [row |] eqn:Hrow.
  - subst result. split; [reflexivity |].
    intros l' s2' u s3 insertError Hl' Hnone.
    rewrite Hl in Hl'. injection Hl' as <- <-. congruence.
  - destruct (Hupsert {| lv_user_id := userId;
                         lv_video_id := video_id_of video;
                         lv_accessed_at := now |} "user_id,video_id" s2)
      as [u [s3 Hu]].
    rewrite Hu in Hcases. destruct Hcases as [Hid Hrest].
    split; [exact Hid |].
    intros l' s2' u' s3' insertError Hl' _ Hu' Hfailed.
    rewrite Hl in Hl'. injection Hl' as <- <-.
    rewrite Hu in Hu'. injection Hu' as <- <-.
    rewrite Hfailed in Hrest. exact Hrest.
Qed.

(** The upsert is refused by the foreign key, and the id is still returned. *)
Lemma videoId_returned_on_every_outcome_witness :
  exists (result : LinkResult.t) (w' : world Store.Db),
    ensureUserVideoLink (Store.client no_procedures) "2026-01-22T12:00:00Z"
      "user-1" "dQw4w9WgXcQ" (sample_db_no_profile, []) = (Normal result, w') /\
    LinkResult.videoId result = Some "video-1" /\
    LinkResult.linked result = false /\
    LinkResult.error result = Some (message Store.fk_violation).
Proof.
  destruct (videoId_returned_on_every_outcome (Store.client no_procedures)
              "2026-01-22T12:00:00Z" "user-1" "dQw4w9WgXcQ"
              sample_db_no_profile sample_db_no_profile []
              {| data := Some {| video_id_of := "video-1" |}; error := None |}
              {| video_id_of := "video-1" |}
              (store_calls_resolve no_procedures) eq_refl eq_refl eq_refl)
    as [result [w' [Hrun [Hid Hfailed]]]].
  exists result, w'. split; [exact Hrun |]. split; [exact Hid |].
  apply (Hfailed {| data := None; error := Some Store.PGRST116 |}
                 sample_db_no_profile
                 {| data := None; error := Some Store.fk_violation |}
                 sample_db_no_profile Store.fk_violation);
    reflexivity.
Defined.

Section LinkLemmas.

Import Store.

Lemma links_refl (db : Db) (user video accessed_at : string) :
  links user video (new_link db user video accessed_at) = true.
Proof.
  unfold links, new_link; simpl. rewrite !String.eqb_refl. reflexivity.
Qed.

(** Appending a row for a pair that has none keeps the constraint. *)
Lemma append_keeps_links_unique (db : Db) (user video accessed_at : string) (next : nat) :
  links_unique db ->
  existsb (links user video) (user_videos db) = false ->
  links_unique
    (with_user_videos db
       (user_videos db ++ [new_link db user video accessed_at]) next).
Proof.
  unfold links_unique; simpl. intros Hnodup Hnone.
  rewrite map_app. simpl.
  apply NoDup_app; [exact Hnodup | constructor; [intros [] | constructor] |].
  intros pair Hin [Heq | []]. subst pair.
  apply in_map_iff in Hin. destruct Hin as [row [Hpair Hin]].
  assert (Hex : existsb (links user video) (user_videos db) = true).
  { apply existsb_exists. exists row. split; [exact Hin |].
    unfold links. injection Hpair as -> ->. rewrite !String.eqb_refl. reflexivity. }
  congruence.
Qed.

End LinkLemmas.

(** C6 (counterexample).  The video exists and the store satisfies its
    unique constraint, but the user has no profile row yet: the upsert is
    refused by the foreign key and the function returns [linked: false]. *)
Lemma link_refused_without_profile :
  Store.videos_of sample_db_no_profile "dQw4w9WgXcQ"
    = [{| Store.va_id := "video-1"; Store.va_youtube_id := "dQw4w9WgXcQ" |}] /\
  Store.links_unique sample_db_no_profile /\
  exists tr,
    ensureUserVideoLink (Store.client no_procedures) "2026-01-22T12:00:00Z"
      "user-1" "dQw4w9WgXcQ" (sample_db_no_profile, [])
    = (Normal {| LinkResult.linked := false;
                 LinkResult.videoId := Some "video-1";
                 LinkResult.error := Some (message Store.fk_violation) |},
       (sample_db_no_profile, tr)).
Proof.
  split; [reflexivity |]. split; [constructor |].
  eexists. vm_compute. reflexivity.
Qed.

(** C6 (amended).  In a store that satisfies the unique constraint, for a
    video that exists and a user who has a profile row, two invocations in
    succession both return [linked: true] with the internal id; the second
    one leaves the store as it is and makes the two queries only, and
    afterwards the pair has exactly one link row and the constraint
    holds. *)
Theorem ensureUserVideoLink_idempotent
    (procedures : string -> RpcArgs -> Store.Db -> awaited (Response string) * Store.Db)
    (db : Store.Db) (now1 now2 userId youtubeId : string)
    (video : Store.VideoAnalysis) :
  Store.links_unique db ->
  Store.videos_of db youtubeId = [video] ->
  Store.has_profile db userId = true ->
  exists (db1 : Store.Db) (tr1 : list event),
    ensureUserVideoLink (Store.client procedures) now1 userId youtubeId (db, [])
    = (Normal {| LinkResult.linked := true;
                 LinkResult.videoId := Some (Store.va_id video);
                 LinkResult.error := None |},
       (db1, tr1)) /\
    ensureUserVideoLink (Store.client procedures) now2 userId youtubeId (db1, [])
    = (Normal {| LinkResult.linked := true;
                 LinkResult.videoId := Some (Store.va_id video);
                 LinkResult.error := None |},
       (db1, [EvSelectVideo youtubeId;
              EvSelectLink userId (Store.va_id video)])) /\
    List.length (Store.links_of db1 userId (Store.va_id video)) = 1%nat /\
    Store.links_unique db1.
Proof.
  intros Hunique Hvideo Hprofile.
  pose proof (links_unique_at_most_one db userId (Store.va_id video) Hunique)
    as Hone.
  destruct (Store.links_of db userId (Store.va_id video)) as [| row rows] eqn:Hlinks.
  - (* no link yet: the first invocation inserts it *)
    pose proof (existsb_filter_nil _ _ Hlinks) as Hnone.
    exists (Store.with_user_videos db
              (Store.user_videos db
                 ++ [Store.new_link db userId (Store.va_id video) now1])
              (Datatypes.S (Store.next_uv_id db))).
    eexists.
    assert (Hlinks1 :
              Store.links_of
                (Store.with_user_videos db
                   (Store.user_videos db
                      ++ [Store.new_link db userId (Store.va_id video) now1])
                   (Datatypes.S (Store.next_uv_id db)))
                userId (Store.va_id video)
              = [Store.new_link db userId (Store.va_id video) now1]).
    { unfold Store.links_of in *; simpl.
      rewrite filter_app, Hlinks. simpl.
      rewrite links_refl. reflexivity. }
    split; [| split; [| split]].
    + unfold ensureUserVideoLink, try_catch, bind, await, ret; simpl.
      rewrite Hvideo; simpl. rewrite Hlinks; simpl.
      unfold Store.upsert; simpl. rewrite Hnone, Hprofile; simpl.
      reflexivity.
    + unfold ensureUserVideoLink, try_catch, bind, await, ret; simpl.
      unfold Store.videos_of in *; simpl. rewrite Hvideo; simpl.
      rewrite Hlinks1; simpl. reflexivity.
    + rewrite Hlinks1. reflexivity.
    + apply append_keeps_links_unique; assumption.
  - (* the link is there: no write at all *)
    destruct rows as [| other rows]; [| simpl in Hone; lia].
    exists db. eexists.
    split; [| split; [| split]].
    + unfold ensureUserVideoLink, try_catch, bind, await, ret; simpl.
      rewrite Hvideo; simpl. rewrite Hlinks; simpl. reflexivity.
    + unfold ensureUserVideoLink, try_catch, bind, await, ret; simpl.
      rewrite Hvideo; simpl. rewrite Hlinks; simpl. reflexivity.
    + rewrite Hlinks. reflexivity.
    + exact Hunique.
Qed.

Lemma ensureUserVideoLink_idempotent_witness :
  exists (db1 : Store.Db) (tr1 : list event),
    ensureUserVideoLink (Store.client no_procedures) "2026-01-22T12:00:00Z"
      "user-1" "dQw4w9WgXcQ" (sample_db, [])
    = (Normal {| LinkResult.linked := true;
                 LinkResult.videoId := Some "video-1";
                 LinkResult.error := None |},
       (db1, tr1)) /\
    ensureUserVideoLink (Store.client no_procedures) "2026-01-22T12:00:05Z"
      "user-1" "dQw4w9WgXcQ" (db1, [])
    = (Normal {| LinkResult.linked := true;
                 LinkResult.videoId := Some "video-1";
                 LinkResult.error := None |},
       (db1, [EvSelectVideo "dQw4w9WgXcQ"; EvSelectLink "user-1" "video-1"])) /\
    List.length (Store.links_of db1 "user-1" "video-1") = 1%nat /\
    Store.links_unique db1.
Proof.
  apply (ensureUserVideoLink_idempotent no_procedures sample_db
           "2026-01-22T12:00:00Z" "2026-01-22T12:00:05Z" "user-1" "dQw4w9WgXcQ"
           {| Store.va_id := "video-1"; Store.va_youtube_id := "dQw4w9WgXcQ" |}).
  - constructor.
  - reflexivity.
  - reflexivity.
Defined.

(* ================================================================== *)
(** ** Claims on the repair endpoint *)

(** C3 (counterexample).  The body carries a [videoId] that is a string,
    the empty one, and the caller is authenticated; the guard [!videoId]
    rejects it with 400. *)
Lemma empty_videoId_is_rejected :
  videoId_member (JObject [("videoId", JString "")]) = Defined (JString "") /\
  typeof_not_string (Defined (JString "")) = false /\
  Store.session_user sample_db = Some {| user_id_of := "user-1" |} /\
  exists w',
    handler store_createClient "2026-01-22T12:00:00Z"
      (request_with (JObject [("videoId", JString "")])) (sample_db, [])
    = (Normal bad_request, w').
Proof.
  repeat split. eexists. vm_compute. reflexivity.
Qed.

Section HandlerLemmas.

Context {S : Type}.
Variable createClient : S -> awaited (SupabaseClient S) * S.
Variable now : string.

#[local] Arguments ensureUserVideoLink : simpl never.

(** The part of the handler that follows the guard. *)
Lemma handler_after_guard (req : NextRequest S) (s s1 : S) (tr : list event)
    (parsed : json) (id : string) :
  req_json req s = (Resolved parsed, s1) ->
  parsed <> JNull ->
  videoId_member parsed = Defined (JString id) ->
  String.eqb id "" = false ->
  exists (resp : NextResponse) (w' : world S),
    handler createClient now req (s, tr) = (Normal resp, w') /\
    responds_after_guard createClient now s1 (tr ++ [EvRequestJson; EvCreateClient; EvGetUser])%list id resp.
Proof.
  intros Hjson Hnotnull Hmember Hid. unfold responds_after_guard.
  assert (Hdestructure :
            forall w : world S,
              @destructure_videoId S parsed w = (Normal (Defined (JString id)), w)).
  { intros w. destruct parsed; simpl in *; try discriminate.
    unfold ret. rewrite Hmember. reflexivity. }
  unfold handler, try_catch, bind, await; simpl.
  rewrite Hjson; simpl. rewrite Hdestructure; simpl.
  unfold truthy_string. rewrite Hid; simpl.
  destruct (createClient s1) as [[supabase | e] s2]; simpl;
    [| eexists; eexists; split; reflexivity].
  destruct (auth_getUser supabase s2) as [[[user |] | e] s3]; simpl;
    try (eexists; eexists; split; reflexivity).
  repeat rewrite <- app_assoc; simpl.
  destruct (ensureUserVideoLink_returns supabase now (user_id_of user) id
              (s3, (tr ++ [EvRequestJson; EvCreateClient; EvGetUser])%list))
    as [result [w3 Hrun]].
  rewrite Hrun; simpl.
  assert (Hfailed_iff :
            link_failed result = true <->
            LinkResult.linked result = false /\
            exists e, LinkResult.error result = Some e /\ e <> "").
  { unfold link_failed, truthy_string.
    destruct result as [linked videoId [e |]]; simpl.
    - rewrite andb_true_iff, !negb_true_iff. split.
      + intros [He Hl]. split; [exact Hl |]. exists e. split; [reflexivity |].
        intros ->. discriminate.
      + intros [Hl [e' [He' Hne]]]. injection He' as <-. split; [| exact Hl].
        destruct (String.eqb_spec e ""); [contradiction | reflexivity].
    - split; [discriminate |]. intros [_ [e [He _]]]. discriminate. }
  destruct (link_failed result) eqn:Hfailed; unfold emit, ret; simpl;
    eexists; eexists; (split; [reflexivity |]);
    exists result, w3; (split; [reflexivity |]); split.
  - intros _ e He _. unfold link_failure, NextResponse_json; simpl.
    rewrite He. reflexivity.
  - destruct (proj1 Hfailed_iff eq_refl) as [Hl [e [He _]]].
    intros [Hl' | Hn]; congruence.
  - intros Hl e He Hne.
    assert (Htrue : false = true)
      by (apply Hfailed_iff; split; [exact Hl | exists e; split; assumption]).
    discriminate.
  - intros _. reflexivity.
Qed.

(** C3 (amended).  The handler always returns a response, never an
    exception:
    - generic 500 when [req.json()] rejects or the body is [null]
      (destructuring throws), and when [createClient] or [getUser] rejects;
    - 400 when [videoId] is missing, not a string, or the empty string;
    - otherwise 401 when no user is resolved;
    - otherwise 500 with the error when the linking primitive returns a
      non-empty error together with [linked: false];
    - 200 with [{linked, videoId}] when it returns [linked: true] or a
      null error. *)
Theorem handler_responses (req : NextRequest S) (s : S) (tr : list event) :
  exists (resp : NextResponse) (w' : world S),
    handler createClient now req (s, tr) = (Normal resp, w') /\
    match req_json req s with
    | (Rejected _, _) => resp = failed_to_verify
    | (Resolved parsed, s1) =>
        match parsed with
        | JNull => resp = failed_to_verify
        | _ =>
            match videoId_member parsed with
            | Defined (JString id) =>
                if String.eqb id "" then resp = bad_request
                else responds_after_guard createClient now s1
                       (tr ++ [EvRequestJson; EvCreateClient; EvGetUser])%list
                       id resp
            | _ => resp = bad_request
            end
        end
    end.
Proof.
  destruct (req_json req s) as [[parsed | e] s1] eqn:Hjson.
  - destruct (match videoId_member parsed with
              | Defined (JString id) => negb (String.eqb id "")
              | _ => false
              end) eqn:Hguard.
    + (* a non-empty string *)
      destruct (videoId_member parsed) as [| [| b | n | id | items | fields]] eqn:Hmember;
        try discriminate.
      apply negb_true_iff in Hguard.
      assert (Hnotnull : parsed <> JNull) by (intros ->; discriminate).
      destruct (handler_after_guard req s s1 tr parsed id Hjson Hnotnull Hmember Hguard)
        as [resp [w' [Hrun Hresp]]].
      exists resp, w'. split; [exact Hrun |].
      rewrite Hguard. destruct parsed; try (exfalso; apply Hnotnull; reflexivity);
        exact Hresp.
    + (* null body, or the guard rejects *)
      unfold handler, try_catch, bind, await; simpl. rewrite Hjson; simpl.
      destruct parsed as [| b | n | str | items | fields]; simpl;
        try (eexists; eexists; split; reflexivity).
      simpl in Hguard. unfold ret.
      destruct (get_property fields "videoId") as [| [| b | n | id | items | fields']];
        simpl; try (eexists; eexists; split; reflexivity).
      * destruct b; simpl; eexists; eexists; split; reflexivity.
      * destruct (n =? 0); simpl; eexists; eexists; split; reflexivity.
      * apply negb_false_iff in Hguard. unfold truthy_string.
        rewrite Hguard; simpl. eexists; eexists; split; reflexivity.
  - unfold handler, try_catch, bind, await; simpl. rewrite Hjson; simpl.
    eexists; eexists; split; reflexivity.
Qed.

End HandlerLemmas.

Lemma handler_responses_witness :
  exists w',
    handler store_createClient "2026-01-22T12:00:00Z"
      (request_with (JObject [("videoId", JString "dQw4w9WgXcQ")]))
      (sample_db, [])
    = (Normal {| status := 200;
                 body := JObject [("linked", JBool true);
                                  ("videoId", JString "video-1")] |}, w').
Proof.
  destruct (handler_responses store_createClient "2026-01-22T12:00:00Z"
              (request_with (JObject [("videoId", JString "dQw4w9WgXcQ")]))
              sample_db [])
    as [resp [w' [Hrun Hresp]]].
  exists w'. rewrite Hrun. f_equal. f_equal.
  simpl in Hresp. unfold responds_after_guard in Hresp. simpl in Hresp.
  destruct Hresp as [result [w3 [Hlink [_ Hreport]]]].
  vm_compute in Hlink. injection Hlink as <- _.
  apply Hreport. left. reflexivity.
Defined.

(* ================================================================== *)
(** ** Lemmas on the bulk repair statement *)

Section MigrationLemmas.

Import Store Migration.

Lemma filter_nil_existsb {A : Type} (f : A -> bool) (l : list A) :
  existsb f l = false -> filter f l = [].
Proof.
  induction l as [| a l IH]; simpl; [reflexivity |].
  destruct (f a); [discriminate | exact IH].
Qed.

(** The [ON] condition of the left join is [links] once [vg.user_id] is
    known. *)
Lemma left_join_condition (g : VideoGeneration) (a : VideoAnalysis) (user : string) :
  vg_user_id g = Some user ->
  forall l,
    sql_eq (vg_user_id g) (uv_user_id l) && String.eqb (uv_video_id l) (va_id a)
    = links user (va_id a) l.
Proof.
  intros Huser l. rewrite Huser. unfold links; simpl.
  rewrite (String.eqb_sym user). reflexivity.
Qed.

(** The rows the [SELECT] yields: one for each generation event of a user
    with a profile, on an analysed video, for a pair without a link. *)
Lemma in_select_distinct (db : Db) (user video accessed_at : string) :
  In (user, video, accessed_at) (select_distinct db) <->
  exists g a pr,
    In g (video_generations db) /\ In a (video_analyses db) /\
    In pr (profiles db) /\
    vg_user_id g = Some user /\
    va_youtube_id a = vg_youtube_id g /\
    profile_id pr = user /\
    va_id a = video /\
    vg_created_at g = accessed_at /\
    existsb (links user video) (user_videos db) = false.
Proof.
  unfold select_distinct. rewrite nodup_In, in_flat_map. split.
  - intros [j [Hj Hc]].
    apply filter_In in Hj. destruct Hj as [Hj Hwhere].
    unfold from_clause in Hj.
    apply in_flat_map in Hj. destruct Hj as [g [Hg Hj]].
    apply in_flat_map in Hj. destruct Hj as [a [Ha Hj]].
    apply in_flat_map in Hj. destruct Hj as [pr [Hpr Hj]].
    apply filter_In in Ha, Hpr.
    destruct Ha as [Ha Hyt], Hpr as [Hpr Hid].
    apply String.eqb_eq in Hyt.
    unfold left_join_user_videos in Hj.
    destruct (filter _ (user_videos db)) as [| m ms] eqn:Hmatches.
    + destruct Hj as [<- | []]. simpl in *.
      unfold select_list in Hc; simpl in Hc.
      destruct (vg_user_id g) as [u |] eqn:Huser; [| destruct Hc].
      destruct Hc as [Hc | []]. injection Hc as -> <- <-.
      simpl in Hid. apply String.eqb_eq in Hid.
      exists g, a, pr. repeat split; try assumption; try congruence.
      apply existsb_filter_nil.
      rewrite <- Hmatches. apply filter_ext.
      intros l. unfold links; simpl. rewrite (String.eqb_sym user). reflexivity.
    + exfalso. apply in_map_iff in Hj. destruct Hj as [l [<- _]].
      unfold where_clause in Hwhere; simpl in Hwhere.
      rewrite andb_false_r in Hwhere. discriminate.
  - intros [g [a [pr [Hg [Ha [Hpr [Huser [Hyt [Hid [Hv [Ht Hnone]]]]]]]]]]].
    exists {| vg := g; va := a; p := pr; uv := None |}. split.
    + apply filter_In. split.
      * unfold from_clause.
        apply in_flat_map. exists g. split; [exact Hg |].
        apply in_flat_map. exists a. split;
          [apply filter_In; split; [exact Ha | apply String.eqb_eq; exact Hyt] |].
        apply in_flat_map. exists pr. split;
          [apply filter_In; split;
           [exact Hpr | rewrite Huser; simpl; apply String.eqb_eq; congruence] |].
        unfold left_join_user_videos.
        rewrite (filter_ext _ _ (left_join_condition g a user Huser)).
        rewrite Hv. rewrite (filter_nil_existsb _ _ Hnone).
        left. reflexivity.
      * unfold where_clause; simpl. rewrite Huser. reflexivity.
    + unfold select_list; simpl. rewrite Huser, Hv, Ht. left. reflexivity.
Qed.

(** Every selected row is for a user with a profile. *)
Lemma selected_have_profile (db : Db) (c : Candidate) :
  In c (select_distinct db) -> has_profile db (fst (fst c)) = true.
Proof.
  destruct c as [[user video] accessed_at]. intros Hin.
  apply in_select_distinct in Hin.
  destruct Hin as [g [a [pr [_ [_ [Hpr [_ [_ [Hid _]]]]]]]]].
  unfold has_profile. apply existsb_exists. exists pr.
  split; [exact Hpr | apply String.eqb_eq; exact Hid].
Qed.

Lemma extends_refl (db : Db) : extends db db.
Proof.
  repeat split. exists []. rewrite app_nil_r. split; [reflexivity | constructor].
Qed.

Lemma extends_trans (db1 db2 db3 : Db) :
  extends db1 db2 -> extends db2 db3 -> extends db1 db3.
Proof.
  intros [Hp [Ha [Hg [Hs [new [Hrows Hnew]]]]]]
         [Hp' [Ha' [Hg' [Hs' [new' [Hrows' Hnew']]]]]].
  repeat split; try congruence.
  exists (new ++ new')%list. split.
  - rewrite Hrows', Hrows, app_assoc. reflexivity.
  - apply Forall_app. split; [exact Hnew |].
    unfold has_profile in *. rewrite Hp in Hnew'. exact Hnew'.
Qed.

Lemma extends_inserted (db db' : Db) :
  extends db db' ->
  user_videos db' = (user_videos db ++ inserted db db')%list /\
  Forall (fun row => has_profile db (uv_user_id row) = true) (inserted db db').
Proof.
  intros [_ [_ [_ [_ [new [Hrows Hnew]]]]]].
  assert (Hins : inserted db db' = new).
  { unfold inserted. rewrite Hrows, skipn_app, skipn_all, Nat.sub_diag.
    reflexivity. }
  rewrite Hins. split; assumption.
Qed.

(** One proposed row, for a user with a profile: the insert goes through,
    and afterwards the pair has a link. *)
Lemma insert_row_ok (db : Db) (user video accessed_at : string) :
  has_profile db user = true ->
  exists db',
    insert_row (user, video, accessed_at) db = inl db' /\
    extends db db' /\
    existsb (links user video) (user_videos db') = true /\
    (links_unique db -> links_unique db').
Proof.
  intros Hprofile. unfold insert_row.
  destruct (existsb (links user video) (user_videos db)) eqn:Hpresent.
  - exists db.
    split; [reflexivity | split; [apply extends_refl | split; [exact Hpresent | auto]]].
  - rewrite Hprofile; simpl. eexists. split; [reflexivity |].
    split; [| split].
    + repeat split. eexists. split; [reflexivity |].
      constructor; [exact Hprofile | constructor].
    + simpl. rewrite existsb_app; simpl.
      unfold links at 2; simpl. rewrite !String.eqb_refl.
      rewrite orb_true_r. reflexivity.
    + intros Hunique.
      apply (append_keeps_links_unique db user video accessed_at); assumption.
Qed.

Lemma existsb_links_extends (db db' : Db) (user video : string) :
  extends db db' ->
  existsb (links user video) (user_videos db) = true ->
  existsb (links user video) (user_videos db') = true.
Proof.
  intros [_ [_ [_ [_ [new [Hrows _]]]]]] Hpresent.
  rewrite Hrows, existsb_app, Hpresent. reflexivity.
Qed.

(** All proposed rows, each for a user with a profile. *)
Lemma insert_rows_ok (rows : list Candidate) :
  forall db : Db,
    (forall c, In c rows -> has_profile db (fst (fst c)) = true) ->
    exists db',
      insert_rows rows db = inl db' /\
      extends db db' /\
      (forall user video accessed_at,
          In (user, video, accessed_at) rows ->
          existsb (links user video) (user_videos db') = true) /\
      (links_unique db -> links_unique db').
Proof.
  induction rows as [| [[user video] accessed_at] rows IH]; intros db Hprofiles.
  - exists db.
    split; [reflexivity | split; [apply extends_refl | split; [| auto]]].
    intros ? ? ? [].
  - destruct (insert_row_ok db user video accessed_at) as
      [db1 [Hrow [Hext1 [Hlinked1 Hunique1]]]];
      [apply (Hprofiles (user, video, accessed_at)); left; reflexivity |].
    destruct (IH db1) as [db2 [Hrows [Hext2 [Hlinked2 Hunique2]]]].
    { intros c Hc. destruct Hext1 as [Hp _].
      unfold has_profile. rewrite Hp. apply Hprofiles. right. exact Hc. }
    exists db2. cbn [insert_rows]. rewrite Hrow. split; [exact Hrows |].
    split; [apply (extends_trans db db1 db2); assumption |].
    split.
    + intros u v t [Heq | Hin].
      * injection Heq as <- <- <-.
        apply (existsb_links_extends db1 db2); assumption.
      * apply (Hlinked2 u v t Hin).
    + intros Hunique. apply Hunique2, Hunique1, Hunique.
Qed.

End MigrationLemmas.

(* ================================================================== *)
(** ** Claim on the bulk repair statement *)

(** C8.  For every state of the store the statement succeeds, appends
    link rows only, and every row it inserts has a [user_id] with a
    matching [profiles] row; run again on the state it produced it inserts
    nothing (the state is left as it is); and it preserves the unique
    constraint on [(user_id, video_id)]. *)
Theorem bulk_repair_safe_and_idempotent (db : Store.Db) :
  exists db1 : Store.Db,
    Migration.fix_missing_user_videos db = inl db1 /\
    Store.user_videos db1
      = (Store.user_videos db ++ Migration.inserted db db1)%list /\
    Forall (fun row => Store.has_profile db (Store.uv_user_id row) = true)
           (Migration.inserted db db1) /\
    Migration.fix_missing_user_videos db1 = inl db1 /\
    Migration.inserted db1 db1 = [] /\
    (Store.links_unique db -> Store.links_unique db1).
Proof.
  destruct (insert_rows_ok (Migration.select_distinct db) db)
    as [db1 [Hrun [Hext [Hlinked Hunique]]]];
    [intros c Hc; apply selected_have_profile; exact Hc |].
  exists db1. split; [exact Hrun |].
  destruct (extends_inserted db db1 Hext) as [Hrows Hprofiles].
  split; [exact Hrows |]. split; [exact Hprofiles |].
  split; [| split; [| exact Hunique]].
  - (* nothing is left to select *)
    unfold Migration.fix_missing_user_videos.
    destruct (Migration.select_distinct db1) as [| [[user video] accessed_at] rest]
      eqn:Hselect; [reflexivity | exfalso].
    assert (Hin : In (user, video, accessed_at) (Migration.select_distinct db1))
      by (rewrite Hselect; left; reflexivity).
    apply in_select_distinct in Hin.
    destruct Hin as [g [a [pr [Hg [Ha [Hpr [Huser [Hyt [Hid [Hv [Ht Hnone]]]]]]]]]]].
    destruct Hext as [Hp [Hva [Hvg [_ [new [Hnew _]]]]]].
    rewrite Hvg in Hg. rewrite Hva in Ha. rewrite Hp in Hpr.
    assert (Hnone0 : existsb (Store.links user video) (Store.user_videos db) = false).
    { rewrite Hnew, existsb_app in Hnone.
      apply orb_false_iff in Hnone. apply Hnone. }
    assert (Hselected : In (user, video, accessed_at) (Migration.select_distinct db)).
    { apply in_select_distinct. exists g, a, pr. repeat split; assumption. }
    rewrite (Hlinked user video accessed_at Hselected) in Hnone. discriminate.
  - unfold Migration.inserted. apply skipn_all.
Qed.

Lemma bulk_repair_safe_and_idempotent_witness :
  exists db1 : Store.Db,
    Migration.fix_missing_user_videos sample_db = inl db1 /\
    Store.user_videos db1
      = [{| Store.uv_id := 1;
            Store.uv_user_id := "user-1";
            Store.uv_video_id := "video-1";
            Store.uv_accessed_at := "2026-01-20T10:00:00Z" |}] /\
    Migration.fix_missing_user_videos db1 = inl db1 /\
    Store.links_unique db1.
Proof.
  destruct (bulk_repair_safe_and_idempotent sample_db)
    as [db1 [Hrun [_ [_ [Hagain [_ Hunique]]]]]].
  exists db1. split; [exact Hrun |].
  split; [| split; [exact Hagain | apply Hunique; constructor]].
  vm_compute in Hrun. injection Hrun as <-. reflexivity.
Defined.

(* ================================================================== *)
(** ** Further properties of [saveVideoAnalysisWithRetry] *)

Lemma total_app (l1 l2 : list Z) : total (l1 ++ l2) = total l1 + total l2.
Proof.
  unfold total. induction l1 as [| x l1 IH]; simpl; [reflexivity | lia].
Qed.

Lemma delay_bound_nonneg (retryDelayMs : Z) (n m : nat) :
  0 <= retryDelayMs -> 0 <= delay_bound retryDelayMs n m.
Proof.
  intros Hdelay. unfold delay_bound, total.
  generalize (Nat.pred m) as len. intros len. revert n.
  induction len as [| len IH]; intros n; cbn [seq map fold_right]; [lia |].
  specialize (IH (Datatypes.S n)).
  assert (0 <= retryDelayMs * (Z.of_nat n + 1)) by (apply Z.mul_nonneg_nonneg; lia).
  lia.
Qed.

Lemma delay_bound_step (retryDelayMs : Z) (n m : nat) :
  delay_bound retryDelayMs n (Datatypes.S (Datatypes.S m)) =
  retryDelayMs * (Z.of_nat n + 1)
  + delay_bound retryDelayMs (Datatypes.S n) (Datatypes.S m).
Proof. reflexivity. Qed.

Section RetryInvariants.

Context {S : Type}.
Variable supabase : SupabaseClient S.
Variable params : VideoAnalysisParams.
Variable maxRetries retryDelayMs : Z.

Let ok := retry_event_ok params maxRetries retryDelayMs.

Lemma catch_events_ok (attempt : Z) (err : thrown) :
  0 <= attempt ->
  Forall ok (catch_events maxRetries retryDelayMs attempt err).
Proof.
  intros Hattempt. unfold catch_events.
  destruct (isRetryableError _); simpl;
    [destruct (Z.ltb_spec attempt (maxRetries - 1)) |];
    repeat constructor.
  exists attempt. split; [lia | reflexivity].
Qed.

Lemma catch_events_delays (attempt : Z) (err : thrown) :
  scheduled_delays (catch_events maxRetries retryDelayMs attempt err) =
  if isRetryableError (errorMessage_of err) && (attempt <? maxRetries - 1)
  then [retryDelayMs * (attempt + 1)] else [].
Proof.
  unfold catch_events. destruct (_ && _); reflexivity.
Qed.

(** What every run of the loop keeps, whatever the client answers; [m]
    counts the attempts left. *)
Lemma attempts_from_invariants :
  forall (m n fuel : nat) (s : S) (tr : list event),
    m = Z.to_nat (maxRetries - Z.of_nat n) ->
    (m <= fuel)%nat ->
    exists (result : SaveResult.t) (s' : S) (tr' : list event),
      attempts_from supabase params maxRetries retryDelayMs fuel (Z.of_nat n) (s, tr)
        = (Normal result, (s', (tr ++ tr')%list)) /\
      Forall ok tr' /\
      (rpc_calls tr' <= m)%nat /\
      (SaveResult.success result = true ->
       (1 <= rpc_calls tr')%nat /\
       SaveResult.retriedCount result = Z.of_nat n + Z.of_nat (rpc_calls tr') - 1 /\
       SaveResult.error result = None) /\
      (SaveResult.success result = false ->
       result = exhausted maxRetries /\ rpc_calls tr' = m) /\
      (0 <= retryDelayMs ->
       0 <= total (scheduled_delays tr') <= delay_bound retryDelayMs n m).
Proof.
  induction m as [| m IH]; intros n fuel s tr Hm Hfuel.
  - exists (exhausted maxRetries), s, []. rewrite app_nil_r.
    split; [| split; [apply Forall_nil | split; [unfold rpc_calls; simpl; lia | split; [simpl; discriminate |]]]].
    + destruct fuel; simpl;
        destruct (Z.ltb_spec (Z.of_nat n) maxRetries); try lia; reflexivity.
    + split; [intros _; split; reflexivity |].
      intros _. unfold delay_bound, total; simpl. lia.
  - destruct fuel as [| fuel]; [lia |].
    simpl.
    destruct (Z.ltb_spec (Z.of_nat n) maxRetries) as [Hlt | Hge]; [| lia].
    unfold bind. rewrite attempt_body_spec.
    destruct (rpc supabase "insert_video_analysis_server" (rpc_args_of params) s)
      as [answer s1].
    set (ev := EvRpc "insert_video_analysis_server" (rpc_args_of params)).
    destruct (attempt_error answer) as [err |].
    + replace (Z.of_nat n + 1) with (Z.of_nat (Datatypes.S n)) by lia.
      destruct (IH (Datatypes.S n) fuel s1
                  (tr ++ ev :: catch_events maxRetries retryDelayMs (Z.of_nat n) err)%list)
        as [result [s' [tr' [Hrun [Hok [Hcalls [Hsucc [Hfail Hdelay]]]]]]]];
        [lia | lia |].
      exists result, s',
        ([ev] ++ catch_events maxRetries retryDelayMs (Z.of_nat n) err ++ tr')%list.
      assert (Hcount :
                rpc_calls ([ev] ++ catch_events maxRetries retryDelayMs (Z.of_nat n) err ++ tr')
                = Datatypes.S (rpc_calls tr')).
      { rewrite !rpc_calls_app, rpc_calls_catch_events. reflexivity. }
      split; [rewrite Hrun, <- app_assoc; reflexivity |].
      split.
      { apply Forall_app. split; [repeat constructor |].
        apply Forall_app. split; [apply catch_events_ok; lia | exact Hok]. }
      split; [rewrite Hcount; lia |].
      split.
      { intros Hs. destruct (Hsucc Hs) as [H1 [H2 H3]].
        rewrite Hcount. split; [lia | split; [lia | exact H3]]. }
      split.
      { intros Hf. destruct (Hfail Hf) as [H1 H2].
        rewrite Hcount. split; [exact H1 | lia]. }
      intros Hnonneg. specialize (Hdelay Hnonneg).
      rewrite !scheduled_delays_app, catch_events_delays, !total_app.
      change (total (scheduled_delays [ev])) with 0.
      pose proof (delay_bound_nonneg retryDelayMs (Datatypes.S n) m Hnonneg) as Hb.
      destruct m as [| m'].
      * (* the last attempt arms no timer *)
        destruct (Z.ltb_spec (Z.of_nat n) (maxRetries - 1)); [lia |].
        rewrite andb_false_r.
        unfold delay_bound, total in *; simpl in *. lia.
      * rewrite delay_bound_step.
        assert (0 <= retryDelayMs * (Z.of_nat n + 1))
          by (apply Z.mul_nonneg_nonneg; lia).
        destruct (_ && _); unfold total at 1; simpl; lia.
    + exists {| SaveResult.success := true;
                SaveResult.videoId := attempt_data answer;
                SaveResult.error := None;
                SaveResult.retriedCount := Z.of_nat n |}, s1, [ev].
      split; [reflexivity |].
      split; [repeat constructor |].
      split; [unfold rpc_calls; simpl; lia |].
      split; [intros _; unfold rpc_calls; simpl; split; [lia | split; [lia | reflexivity]] |].
      split; [discriminate |].
      intros Hnonneg.
      pose proof (delay_bound_nonneg retryDelayMs n (Datatypes.S m) Hnonneg).
      unfold total at 1; simpl. lia.
Qed.

End RetryInvariants.

Lemma delay_bound_closed (retryDelayMs maxRetries : Z) :
  delay_bound retryDelayMs 0 (Z.to_nat maxRetries)
  = retryDelayMs * sum_1_to (maxRetries - 1).
Proof.
  unfold delay_bound, sum_1_to.
  replace (Nat.pred (Z.to_nat maxRetries)) with (Z.to_nat (maxRetries - 1)) by lia.
  apply total_linear.
Qed.

(** X1.  Whatever the client answers, the remote procedure is called at
    most [maxRetries] times; a success is returned by the call that
    succeeded, with [retriedCount] one less than the number of calls made;
    a failure is returned only after all [maxRetries] calls. *)
Theorem attempts_never_exceed_maxRetries {S : Type}
    (supabase : SupabaseClient S) (params : VideoAnalysisParams)
    (options : optional RetryOptions) (s : S) :
  exists (result : SaveResult.t) (s' : S) (tr : list event),
    saveVideoAnalysisWithRetry supabase params options (s, [])
      = (Normal result, (s', tr)) /\
    (rpc_calls tr <= Z.to_nat (maxRetries_of options))%nat /\
    (SaveResult.success result = true ->
     (1 <= rpc_calls tr)%nat /\
     SaveResult.retriedCount result = Z.of_nat (rpc_calls tr) - 1) /\
    (SaveResult.success result = false ->
     rpc_calls tr = Z.to_nat (maxRetries_of options)).
Proof.
  unfold saveVideoAnalysisWithRetry.
  destruct (attempts_from_invariants supabase params (maxRetries_of options)
              (retryDelayMs_of options) (Z.to_nat (maxRetries_of options)) 0%nat
              (Z.to_nat (maxRetries_of options)) s [])
    as [result [s' [tr [Hrun [_ [Hcalls [Hsucc [Hfail _]]]]]]]];
    [simpl; f_equal; lia | lia |].
  exists result, s', tr. split; [exact Hrun |]. split; [exact Hcalls |].
  split.
  - intros Hs. destruct (Hsucc Hs) as [H1 [H2 _]]. split; [exact H1 | lia].
  - intros Hf. apply (Hfail Hf).
Qed.

(** X2.  A run adds to the trace nothing but calls of
    [insert_video_analysis_server], console lines, and timers of
    [retryDelayMs * (i + 1)] with [0 <= i < maxRetries - 1].  Every call
    sends the same request: the thirteen arguments are the fields of
    [params], [youtubeId] as [p_youtube_id] and so on, an absent optional
    field as [null].  No table is queried. *)
Theorem every_attempt_sends_the_same_request {S : Type}
    (supabase : SupabaseClient S) (params : VideoAnalysisParams)
    (options : optional RetryOptions) (s : S) (tr0 : list event) :
  exists (result : SaveResult.t) (s' : S) (tr : list event),
    saveVideoAnalysisWithRetry supabase params options (s, tr0)
      = (Normal result, (s', (tr0 ++ tr)%list)) /\
    Forall (retry_event_sends params (maxRetries_of options) (retryDelayMs_of options)) tr.
Proof.
  unfold saveVideoAnalysisWithRetry.
  destruct (attempts_from_invariants supabase params (maxRetries_of options)
              (retryDelayMs_of options) (Z.to_nat (maxRetries_of options)) 0%nat
              (Z.to_nat (maxRetries_of options)) s tr0)
    as [result [s' [tr [Hrun [Hok _]]]]];
    [simpl; f_equal; lia | lia |].
  exists result, s', tr. split; [exact Hrun |].
  apply Forall_impl with (2 := Hok).
  intros ev Hev. destruct ev; simpl in *; try exact Hev.
  destruct Hev as [Hfn Hargs]. split; [exact Hfn |].
  subst args. unfold sends. simpl. repeat split.
Qed.

(** X3.  With a delay that is not negative, the timers of a run add up to
    at most [retryDelayMs * (1 + 2 + ... + (maxRetries - 1))], whatever the
    client answers. *)
Theorem total_delay_is_bounded {S : Type}
    (supabase : SupabaseClient S) (params : VideoAnalysisParams)
    (options : optional RetryOptions) (s : S) :
  0 <= retryDelayMs_of options ->
  exists (result : SaveResult.t) (s' : S) (tr : list event),
    saveVideoAnalysisWithRetry supabase params options (s, [])
      = (Normal result, (s', tr)) /\
    0 <= total (scheduled_delays tr)
      <= retryDelayMs_of options * sum_1_to (maxRetries_of options - 1).
Proof.
  intros Hdelay. unfold saveVideoAnalysisWithRetry.
  destruct (attempts_from_invariants supabase params (maxRetries_of options)
              (retryDelayMs_of options) (Z.to_nat (maxRetries_of options)) 0%nat
              (Z.to_nat (maxRetries_of options)) s [])
    as [result [s' [tr [Hrun [_ [_ [_ [_ Hbound]]]]]]]];
    [simpl; f_equal; lia | lia |].
  exists result, s', tr. split; [exact Hrun |].
  rewrite <- delay_bound_closed. apply Hbound. exact Hdelay.
Qed.

Lemma total_delay_is_bounded_witness :
  exists (result : SaveResult.t) (s' : nat) (tr : list event),
    saveVideoAnalysisWithRetry (scripted succeeds_third) sample_params Undefined
      (0%nat, [])
      = (Normal result, (s', tr)) /\
    0 <= total (scheduled_delays tr) <= 1500.
Proof.
  apply (total_delay_is_bounded (scripted succeeds_third) sample_params
           Undefined 0%nat).
  simpl. lia.
Defined.

(** X4.  With [maxRetries] zero or negative nothing is called and the
    failure record carries that very number as [retriedCount]. *)
Theorem nonpositive_maxRetries_makes_no_call {S : Type}
    (supabase : SupabaseClient S) (params : VideoAnalysisParams)
    (options : optional RetryOptions) (w : world S) :
  maxRetries_of options <= 0 ->
  saveVideoAnalysisWithRetry supabase params options w
  = (Normal {| SaveResult.success := false;
               SaveResult.videoId := None;
               SaveResult.error := Some "Max retries exceeded";
               SaveResult.retriedCount := maxRetries_of options |},
     w).
Proof.
  intros Hmax. unfold saveVideoAnalysisWithRetry.
  replace (Z.to_nat (maxRetries_of options)) with 0%nat by lia.
  simpl. destruct (Z.ltb_spec 0 (maxRetries_of options)); [lia | reflexivity].
Qed.

Lemma nonpositive_maxRetries_makes_no_call_witness :
  saveVideoAnalysisWithRetry (scripted (fun _ => saved "video-1")) sample_params
    (Defined {| maxRetries := Defined (-2); retryDelayMs := Undefined |})
    (0%nat, [])
  = (Normal {| SaveResult.success := false;
               SaveResult.videoId := None;
               SaveResult.error := Some "Max retries exceeded";
               SaveResult.retriedCount := -2 |},
     (0%nat, [])).
Proof.
  apply (nonpositive_maxRetries_makes_no_call (scripted (fun _ => saved "video-1"))
           sample_params
           (Defined {| maxRetries := Defined (-2); retryDelayMs := Undefined |})
           (0%nat, [])).
  simpl. lia.
Defined.

(** X5.  An error message is retryable exactly when it contains
    ['foreign key'], ['profiles'] or ['user_videos_user_id_fkey'] as a
    substring; the test for ['violates foreign key constraint'] never
    decides. *)
Theorem isRetryableError_iff (errorMessage : string) :
  isRetryableError errorMessage = true <->
  exists pre post,
    errorMessage = pre ++ "foreign key" ++ post \/
    errorMessage = pre ++ "profiles" ++ post \/
    errorMessage = pre ++ "user_videos_user_id_fkey" ++ post.
Proof.
  rewrite isRetryableError_three_markers, !orb_true_iff, !includes_spec.
  split.
  - intros [[[pre [post H]] | [pre [post H]]] | [pre [post H]]];
      exists pre, post; auto.
  - intros [pre [post [H | [H | H]]]];
      [left; left | left; right | right]; exists pre, post; exact H.
Qed.

Lemma steps_app (tr1 tr2 : list event) :
  steps (tr1 ++ tr2) = (steps tr1 ++ steps tr2)%list.
Proof.
  induction tr1 as [| e tr1 IH]; simpl; [reflexivity |].
  destruct e; simpl; rewrite IH; reflexivity.
Qed.

Lemma steps_catch_events (maxRetries retryDelayMs attempt : Z) (err : thrown) :
  steps (catch_events maxRetries retryDelayMs attempt err) =
  if isRetryableError (errorMessage_of err) && (attempt <? maxRetries - 1)
  then [Wait (retryDelayMs * (attempt + 1))] else [].
Proof.
  unfold catch_events. destruct (_ && _); reflexivity.
Qed.

(** Failures on every attempt, call by call and timer by timer; [m]
    counts the attempts left. *)
Lemma loop_all_fail_steps (script : nat -> awaited (Response string))
    (params : VideoAnalysisParams) (maxRetries retryDelayMs : Z) :
  forall (m n fuel : nat) (tr : list event),
    m = Z.to_nat (maxRetries - Z.of_nat n) ->
    (m <= fuel)%nat ->
    (forall j, (n <= j)%nat -> Z.of_nat j < maxRetries ->
               attempt_error (script j) <> None) ->
    exists tr',
      attempts_from (scripted script) params maxRetries retryDelayMs fuel
        (Z.of_nat n) (n, tr)
        = (Normal (exhausted maxRetries), ((n + m)%nat, (tr ++ tr')%list)) /\
      steps tr' = failing_steps script maxRetries retryDelayMs n m.
Proof.
  induction m as [| m IH]; intros n fuel tr Hm Hfuel Hfail.
  - exists []. rewrite app_nil_r, Nat.add_0_r. split; [| reflexivity].
    destruct fuel; simpl;
      destruct (Z.ltb_spec (Z.of_nat n) maxRetries); try lia; reflexivity.
  - destruct fuel as [| fuel]; [lia |].
    simpl.
    destruct (Z.ltb_spec (Z.of_nat n) maxRetries) as [Hlt | Hge]; [| lia].
    unfold bind. rewrite attempt_body_spec. simpl.
    destruct (attempt_error (script n)) as [err |] eqn:Herr.
    + replace (Z.of_nat n + 1) with (Z.of_nat (Datatypes.S n)) by lia.
      destruct (IH (Datatypes.S n) fuel
                  (tr ++ EvRpc "insert_video_analysis_server" (rpc_args_of params)
                        :: catch_events maxRetries retryDelayMs (Z.of_nat n) err)%list)
        as [tr' [Hrun Hsteps]];
        [lia | lia | intros j Hj; apply Hfail; lia |].
      rewrite Hrun.
      exists ([EvRpc "insert_video_analysis_server" (rpc_args_of params)]
                ++ catch_events maxRetries retryDelayMs (Z.of_nat n) err ++ tr')%list.
      split.
      * rewrite <- app_assoc.
        replace (Datatypes.S n + m)%nat with (n + Datatypes.S m)%nat by lia.
        reflexivity.
      * rewrite !steps_app, steps_catch_events, Hsteps.
        unfold failing_steps, timer_after. cbn [seq flat_map].
        rewrite Herr. reflexivity.
    + exfalso. apply (Hfail n); [lia | exact Hlt | exact Herr].
Qed.

(** No timer anywhere: the calls follow one another. *)
Lemma failing_steps_without_timers (script : nat -> awaited (Response string))
    (maxRetries retryDelayMs : Z) :
  forall (m n : nat),
    (forall j, (n <= j < n + m)%nat ->
               timer_after script maxRetries retryDelayMs j = []) ->
    failing_steps script maxRetries retryDelayMs n m = repeat Call m.
Proof.
  induction m as [| m IH]; intros n Hnone; [reflexivity |].
  unfold failing_steps in *. cbn [seq flat_map repeat].
  rewrite (Hnone n) by lia. rewrite IH by (intros j Hj; apply Hnone; lia).
  reflexivity.
Qed.

(** X6.  When no attempt succeeds, the run is one call per attempt, and a
    timer of [retryDelayMs * (i + 1)] follows the call of index [i] exactly
    when [i] is not the last attempt and the text the [catch] clause tests
    contains a marker: [err.message] for an instance of [Error],
    [String(err)] for any other value.  So the error objects a response
    carries, which are no instances of [Error] and render as
    ['[object Object]'], arm no timer whatever their message says: the
    calls follow one another at once. *)
Theorem timers_follow_classified_failures {S : Type}
    (supabase : SupabaseClient S) (params : VideoAnalysisParams)
    (options : optional RetryOptions) (s : S) :
  (forall j, Z.of_nat j < maxRetries_of options ->
             attempt_error (script_of supabase params s j) <> None) ->
  exists tr,
    saveVideoAnalysisWithRetry supabase params options (s, [])
    = (Normal (exhausted (maxRetries_of options)),
       (state_after supabase params s (Z.to_nat (maxRetries_of options)), tr)) /\
    steps tr =
      flat_map
        (fun j =>
           Call :: timer_after (script_of supabase params s)
                     (maxRetries_of options) (retryDelayMs_of options) j)
        (seq 0 (Z.to_nat (maxRetries_of options))) /\
    ((forall j err,
         Z.of_nat j < maxRetries_of options ->
         attempt_error (script_of supabase params s j) = Some err ->
         instanceof_Error err = false /\ String_of err = "[object Object]") ->
     steps tr = repeat Call (Z.to_nat (maxRetries_of options))).
Proof.
  intros Hfail.
  set (maxR := maxRetries_of options) in *.
  set (delay := retryDelayMs_of options) in *.
  destruct (saveVideoAnalysisWithRetry_follows_script supabase params options s [])
    as [r [m [tr' [Hrun Hscripted]]]].
  destruct (loop_all_fail_steps (script_of supabase params s) params maxR delay
              (Z.to_nat maxR) 0%nat (Z.to_nat maxR) [])
    as [tr [Hrun' Hsteps]];
    [simpl; f_equal; lia | lia | intros j _; apply Hfail |].
  unfold saveVideoAnalysisWithRetry in Hscripted. fold maxR delay in Hscripted.
  change (Z.of_nat 0) with 0 in Hrun'.
  rewrite Hrun' in Hscripted. injection Hscripted as <- <- <-.
  exists tr. split; [exact Hrun |]. split; [exact Hsteps |].
  intros Hplain. rewrite Hsteps.
  apply failing_steps_without_timers.
  intros j Hj. unfold timer_after.
  destruct (attempt_error (script_of supabase params s j)) as [err |] eqn:Herr;
    [| reflexivity].
  destruct (Hplain j err) as [Hinst Hstring]; [lia | exact Herr |].
  rewrite Hinst, Hstring. reflexivity.
Qed.

(** Foreign-key violations and a refusal, as the client delivers them. *)
Lemma timers_follow_classified_failures_witness :
  exists tr,
    saveVideoAnalysisWithRetry
      (scripted (fun n => match n with
                          | 1%nat => permission_denied
                          | _ => profile_not_ready
                          end))
      sample_params
      (Defined {| maxRetries := Defined 4; retryDelayMs := Defined 100 |})
      (0%nat, [])
    = (Normal (exhausted 4), (4%nat, tr)) /\
    steps tr = [Call; Call; Call; Call].
Proof.
  destruct (timers_follow_classified_failures
              (scripted (fun n => match n with
                                  | 1%nat => permission_denied
                                  | _ => profile_not_ready
                                  end))
              sample_params
              (Defined {| maxRetries := Defined 4; retryDelayMs := Defined 100 |})
              0%nat)
    as [tr [Hrun [Hsteps _]]].
  - intros j _. rewrite script_of_scripted.
    destruct j as [| [| j]]; simpl; discriminate.
  - exists tr. split; [exact Hrun |]. rewrite Hsteps. reflexivity.
Defined.

(* ================================================================== *)
(** ** Further properties of [ensureUserVideoLink] *)

Section LinkRuns.

Context {S : Type}.
Variable supabase : SupabaseClient S.
Variable now userId youtubeId : string.

(** The run, call by call, with the state and the trace it ends in. *)
Lemma ensureUserVideoLink_run (s : S) (tr : list event) :
  ensureUserVideoLink supabase now userId youtubeId (s, tr) =
  match video_analyses_by_youtube_id supabase youtubeId s with
  | (Rejected e, s1) =>
      (Normal (unexpected e),
       (s1, tr ++ [EvSelectVideo youtubeId;
                   EvConsoleError [LText "[ensureUserVideoLink] Unexpected error:";
                                   LThrown e]])%list)
  | (Resolved v, s1) =>
      match error v, data v with
      | None, Some video =>
          let id := video_id_of video in
          let values := {| lv_user_id := userId; lv_video_id := id;
                           lv_accessed_at := now |} in
          match user_videos_by_user_and_video supabase userId id s1 with
          | (Rejected e, s2) =>
              (Normal (unexpected e),
               (s2, tr ++ [EvSelectVideo youtubeId; EvSelectLink userId id;
                           EvConsoleError
                             [LText "[ensureUserVideoLink] Unexpected error:";
                              LThrown e]])%list)
          | (Resolved l, s2) =>
              match data l with
              | Some _ =>
                  (Normal {| LinkResult.linked := true;
                             LinkResult.videoId := Some id;
                             LinkResult.error := None |},
                   (s2, tr ++ [EvSelectVideo youtubeId; EvSelectLink userId id])%list)
              | None =>
                  match user_videos_upsert supabase values "user_id,video_id" s2 with
                  | (Rejected e, s3) =>
                      (Normal (unexpected e),
                       (s3, tr ++ [EvSelectVideo youtubeId; EvSelectLink userId id;
                                   EvUpsertLink values "user_id,video_id";
                                   EvConsoleError
                                     [LText "[ensureUserVideoLink] Unexpected error:";
                                      LThrown e]])%list)
                  | (Resolved u, s3) =>
                      match error u with
                      | Some insertError =>
                          (Normal {| LinkResult.linked := false;
                                     LinkResult.videoId := Some id;
                                     LinkResult.error := Some (message insertError) |},
                           (s3, tr ++ [EvSelectVideo youtubeId; EvSelectLink userId id;
                                       EvUpsertLink values "user_id,video_id";
                                       EvConsoleError
                                         [LText "[ensureUserVideoLink] Failed to create link:";
                                          LThrown insertError]])%list)
                      | None =>
                          (Normal {| LinkResult.linked := true;
                                     LinkResult.videoId := Some id;
                                     LinkResult.error := None |},
                           (s3, tr ++ [EvSelectVideo youtubeId; EvSelectLink userId id;
                                       EvUpsertLink values "user_id,video_id"])%list)
                      end
                  end
              end
          end
      | _, _ =>
          (Normal {| LinkResult.linked := false;
                     LinkResult.videoId := None;
                     LinkResult.error := Some "Video not found" |},
           (s1, tr ++ [EvSelectVideo youtubeId])%list)
      end
  end.
Proof.
  unfold ensureUserVideoLink, try_catch, bind, await, emit, ret, unexpected; simpl.
  destruct (video_analyses_by_youtube_id supabase youtubeId s) as [[v | e] s1];
    simpl; [| rewrite <- app_assoc; reflexivity].
  destruct (error v); [reflexivity |].
  destruct (data v) as [video |]; simpl; [| reflexivity].
  destruct (user_videos_by_user_and_video supabase userId (video_id_of video) s1)
    as [[l | e] s2]; simpl; [| rewrite <- !app_assoc; reflexivity].
  destruct (data l); simpl; [rewrite <- !app_assoc; reflexivity |].
  destruct (user_videos_upsert supabase _ _ s2) as [[u | e] s3]; simpl;
    [| rewrite <- !app_assoc; reflexivity].
  destruct (error u); simpl; rewrite <- !app_assoc; reflexivity.
Qed.

End LinkRuns.

(** X7.  [ensureUserVideoLink] never throws, whatever the client does, and
    its result is one of two shapes: [linked: true] with the internal id
    and no error, or [linked: false] with an error. *)
Theorem link_result_shape {S : Type} (supabase : SupabaseClient S)
    (now userId youtubeId : string) (w : world S) :
  exists (result : LinkResult.t) (w' : world S),
    ensureUserVideoLink supabase now userId youtubeId w = (Normal result, w') /\
    (LinkResult.linked result = true ->
     LinkResult.error result = None /\ LinkResult.videoId result <> None) /\
    (LinkResult.linked result = false -> LinkResult.error result <> None).
Proof.
  destruct w as [s tr]. rewrite ensureUserVideoLink_run.
  destruct (video_analyses_by_youtube_id supabase youtubeId s) as [[v | e] s1].
  2: { eexists; eexists; split; [reflexivity |]; simpl;
       split; [discriminate | intros _; discriminate]. }
  destruct (error v).
  { eexists; eexists; split; [reflexivity |]; simpl;
    split; [discriminate | intros _; discriminate]. }
  destruct (data v) as [video |].
  2: { eexists; eexists; split; [reflexivity |]; simpl;
       split; [discriminate | intros _; discriminate]. }
  cbv zeta.
  destruct (user_videos_by_user_and_video supabase userId (video_id_of video) s1)
    as [[l | e] s2].
  2: { eexists; eexists; split; [reflexivity |]; simpl;
       split; [discriminate | intros _; discriminate]. }
  destruct (data l).
  { eexists; eexists; split; [reflexivity |]; simpl;
    split; [intros _; split; [reflexivity | discriminate] | discriminate]. }
  destruct (user_videos_upsert supabase _ _ s2) as [[u | e] s3].
  2: { eexists; eexists; split; [reflexivity |]; simpl;
       split; [discriminate | intros _; discriminate]. }
  destruct (error u); eexists; eexists; (split; [reflexivity |]); simpl.
  - split; [discriminate | intros _; discriminate].
  - split; [intros _; split; [reflexivity | discriminate] | discriminate].
Qed.

(** X8.  The calls a run makes on the client are the lookup alone, or the
    lookup and the link query, or these two and one upsert: never more
    than one write, never a write before both queries, and the link query
    and the upsert are for the [userId] given and the id the lookup
    returned, with the conflict target ['user_id,video_id']. *)
Theorem link_call_discipline {S : Type} (supabase : SupabaseClient S)
    (now userId youtubeId : string) (s : S) (tr : list event) :
  exists (result : LinkResult.t) (s' : S) (tr' : list event),
    ensureUserVideoLink supabase now userId youtubeId (s, tr)
      = (Normal result, (s', (tr ++ tr')%list)) /\
    (client_calls tr' = [EvSelectVideo youtubeId] \/
     exists (v : Response VideoRow) (s1 : S) (video : VideoRow),
       video_analyses_by_youtube_id supabase youtubeId s = (Resolved v, s1) /\
       data v = Some video /\
       (client_calls tr'
          = [EvSelectVideo youtubeId; EvSelectLink userId (video_id_of video)] \/
        client_calls tr'
          = [EvSelectVideo youtubeId; EvSelectLink userId (video_id_of video);
             EvUpsertLink {| lv_user_id := userId;
                             lv_video_id := video_id_of video;
                             lv_accessed_at := now |} "user_id,video_id"])).
Proof.
  rewrite ensureUserVideoLink_run.
  destruct (video_analyses_by_youtube_id supabase youtubeId s) as [[v | e] s1] eqn:Hlookup.
  2: { eexists; eexists; eexists; split; [reflexivity | left; reflexivity]. }
  destruct (error v).
  { eexists; eexists; eexists; split; [reflexivity | left; reflexivity]. }
  destruct (data v) as [video |] eqn:Hdata.
  2: { eexists; eexists; eexists; split; [reflexivity | left; reflexivity]. }
  cbv zeta.
  destruct (user_videos_by_user_and_video supabase userId (video_id_of video) s1)
    as [[l | e] s2].
  2: { eexists; eexists; eexists; split; [reflexivity |].
       right. exists v, s1, video. repeat split; try assumption. left. reflexivity. }
  destruct (data l).
  { eexists; eexists; eexists; split; [reflexivity |].
    right. exists v, s1, video. repeat split; try assumption. left. reflexivity. }
  destruct (user_videos_upsert supabase _ _ s2) as [[u | e] s3].
  2: { eexists; eexists; eexists; split; [reflexivity |].
       right. exists v, s1, video. repeat split; try assumption. right. reflexivity. }
  destruct (error u); eexists; eexists; eexists; (split; [reflexivity |]);
    right; exists v, s1, video; repeat split; try assumption; right; reflexivity.
Qed.

(* ------------------------------------------------------------------ *)
(** *** In front of the store *)

Section LinkOnStore.

Import Store.

Variable procedures : string -> RpcArgs -> Db -> awaited (Response string) * Db.
Variable now userId youtubeId : string.

Lemma single_not_one {A B : Type} (f : A -> B) (rows : list A) :
  List.length rows <> 1%nat ->
  single f rows = {| data := None; error := Some PGRST116 |}.
Proof.
  destruct rows as [| r [| r' rows]]; simpl; intros H; [reflexivity | lia | reflexivity].
Qed.

(** More or fewer than one row for the external id: not found. *)
Lemma link_on_store_not_found (db : Db) (tr : list event) :
  List.length (videos_of db youtubeId) <> 1%nat ->
  ensureUserVideoLink (client procedures) now userId youtubeId (db, tr)
  = (Normal {| LinkResult.linked := false;
               LinkResult.videoId := None;
               LinkResult.error := Some "Video not found" |},
     (db, (tr ++ [EvSelectVideo youtubeId])%list)).
Proof.
  intros Hrows. rewrite ensureUserVideoLink_run. simpl.
  rewrite (single_not_one _ _ Hrows). reflexivity.
Qed.

(** The link is there: nothing is written. *)
Lemma link_on_store_existing (db : Db) (tr : list event)
    (video : VideoAnalysis) (row : UserVideo) :
  videos_of db youtubeId = [video] ->
  links_of db userId (va_id video) = [row] ->
  ensureUserVideoLink (client procedures) now userId youtubeId (db, tr)
  = (Normal {| LinkResult.linked := true;
               LinkResult.videoId := Some (va_id video);
               LinkResult.error := None |},
     (db, (tr ++ [EvSelectVideo youtubeId; EvSelectLink userId (va_id video)])%list)).
Proof.
  intros Hvideo Hlinks. rewrite ensureUserVideoLink_run. simpl.
  rewrite Hvideo; simpl. rewrite Hlinks; simpl. reflexivity.
Qed.

(** No link and a profile: one row is appended. *)
Lemma link_on_store_created (db : Db) (tr : list event) (video : VideoAnalysis) :
  videos_of db youtubeId = [video] ->
  links_of db userId (va_id video) = [] ->
  has_profile db userId = true ->
  ensureUserVideoLink (client procedures) now userId youtubeId (db, tr)
  = (Normal {| LinkResult.linked := true;
               LinkResult.videoId := Some (va_id video);
               LinkResult.error := None |},
     (with_user_videos db
        (user_videos db ++ [new_link db userId (va_id video) now])
        (Datatypes.S (next_uv_id db)),
      (tr ++ [EvSelectVideo youtubeId; EvSelectLink userId (va_id video);
              EvUpsertLink {| lv_user_id := userId;
                              lv_video_id := va_id video;
                              lv_accessed_at := now |} "user_id,video_id"])%list)).
Proof.
  intros Hvideo Hlinks Hprofile. rewrite ensureUserVideoLink_run. simpl.
  rewrite Hvideo; simpl. rewrite Hlinks; simpl.
  unfold upsert; simpl.
  rewrite (existsb_filter_nil _ _ Hlinks), Hprofile; simpl. reflexivity.
Qed.

(** No link and no profile: the foreign key refuses the row. *)
Lemma link_on_store_refused (db : Db) (tr : list event) (video : VideoAnalysis) :
  videos_of db youtubeId = [video] ->
  links_of db userId (va_id video) = [] ->
  has_profile db userId = false ->
  ensureUserVideoLink (client procedures) now userId youtubeId (db, tr)
  = (Normal {| LinkResult.linked := false;
               LinkResult.videoId := Some (va_id video);
               LinkResult.error := Some (message fk_violation) |},
     (db,
      (tr ++ [EvSelectVideo youtubeId; EvSelectLink userId (va_id video);
              EvUpsertLink {| lv_user_id := userId;
                              lv_video_id := va_id video;
                              lv_accessed_at := now |} "user_id,video_id";
              EvConsoleError [LText "[ensureUserVideoLink] Failed to create link:";
                              LThrown fk_violation]])%list)).
Proof.
  intros Hvideo Hlinks Hprofile. rewrite ensureUserVideoLink_run. simpl.
  rewrite Hvideo; simpl. rewrite Hlinks; simpl.
  unfold upsert; simpl.
  rewrite (existsb_filter_nil _ _ Hlinks), Hprofile; simpl. reflexivity.
Qed.

End LinkOnStore.

(** X9.  In front of the store: when more than one [video_analyses] row
    carries the external id, [.single()] fails as it does for none, and the
    video is reported as not found; nothing is written. *)
Theorem duplicate_videos_are_not_found
    (procedures : string -> RpcArgs -> Store.Db -> awaited (Response string) * Store.Db)
    (db : Store.Db) (now userId youtubeId : string) (tr : list event) :
  (2 <= List.length (Store.videos_of db youtubeId))%nat ->
  ensureUserVideoLink (Store.client procedures) now userId youtubeId (db, tr)
  = (Normal {| LinkResult.linked := false;
               LinkResult.videoId := None;
               LinkResult.error := Some "Video not found" |},
     (db, (tr ++ [EvSelectVideo youtubeId])%list)).
Proof.
  intros Hrows. apply link_on_store_not_found. lia.
Qed.

Lemma duplicate_videos_are_not_found_witness :
  ensureUserVideoLink (Store.client no_procedures) "2026-01-22T12:00:00Z"
    "user-1" "dQw4w9WgXcQ" (sample_db_duplicate_video, [])
  = (Normal {| LinkResult.linked := false;
               LinkResult.videoId := None;
               LinkResult.error := Some "Video not found" |},
     (sample_db_duplicate_video, [EvSelectVideo "dQw4w9WgXcQ"])).
Proof.
  apply (duplicate_videos_are_not_found no_procedures sample_db_duplicate_video
           "2026-01-22T12:00:00Z" "user-1" "dQw4w9WgXcQ" []).
  simpl. lia.
Defined.

(** X10.  In front of the store: for a video that exists and a user
    without a profile row and without a link, the upsert is refused by the
    foreign key; the result is [linked: false] with the internal id and the
    message of the violation, and the store is left as it was. *)
Theorem refused_link_leaves_store_unchanged
    (procedures : string -> RpcArgs -> Store.Db -> awaited (Response string) * Store.Db)
    (db : Store.Db) (now userId youtubeId : string) (video : Store.VideoAnalysis) :
  Store.videos_of db youtubeId = [video] ->
  Store.links_of db userId (Store.va_id video) = [] ->
  Store.has_profile db userId = false ->
  exists tr,
    ensureUserVideoLink (Store.client procedures) now userId youtubeId (db, [])
    = (Normal {| LinkResult.linked := false;
                 LinkResult.videoId := Some (Store.va_id video);
                 LinkResult.error := Some (message Store.fk_violation) |},
       (db, tr)).
Proof.
  intros Hvideo Hlinks Hprofile. eexists.
  apply (link_on_store_refused procedures now userId youtubeId db [] video);
    assumption.
Qed.

Lemma refused_link_leaves_store_unchanged_witness :
  exists tr,
    ensureUserVideoLink (Store.client no_procedures) "2026-01-22T12:00:00Z"
      "user-1" "dQw4w9WgXcQ" (sample_db_no_profile, [])
    = (Normal {| LinkResult.linked := false;
                 LinkResult.videoId := Some "video-1";
                 LinkResult.error := Some (message Store.fk_violation) |},
       (sample_db_no_profile, tr)).
Proof.
  apply (refused_link_leaves_store_unchanged no_procedures sample_db_no_profile
           "2026-01-22T12:00:00Z" "user-1" "dQw4w9WgXcQ"
           {| Store.va_id := "video-1"; Store.va_youtube_id := "dQw4w9WgXcQ" |});
    reflexivity.
Defined.

(** X11.  In front of the store, for a video that exists: when the pair
    has no link and the user has a profile, exactly one row is appended
    after the rows there are, with the user id, the internal video id, the
    current time as [accessed_at] and the next key, and the link query
    finds it afterwards; when the pair has its link already, the store is
    not changed: [accessed_at] is not refreshed. *)
Theorem link_row_created_or_kept
    (procedures : string -> RpcArgs -> Store.Db -> awaited (Response string) * Store.Db)
    (db : Store.Db) (now userId youtubeId : string) (video : Store.VideoAnalysis) :
  Store.videos_of db youtubeId = [video] ->
  (Store.links_of db userId (Store.va_id video) = [] ->
   Store.has_profile db userId = true ->
   exists db' tr,
     ensureUserVideoLink (Store.client procedures) now userId youtubeId (db, [])
     = (Normal {| LinkResult.linked := true;
                  LinkResult.videoId := Some (Store.va_id video);
                  LinkResult.error := None |},
        (db', tr)) /\
     Store.user_videos db'
       = (Store.user_videos db
            ++ [{| Store.uv_id := Store.next_uv_id db;
                   Store.uv_user_id := userId;
                   Store.uv_video_id := Store.va_id video;
                   Store.uv_accessed_at := now |}])%list /\
     Store.links_of db' userId (Store.va_id video)
       = [{| Store.uv_id := Store.next_uv_id db;
             Store.uv_user_id := userId;
             Store.uv_video_id := Store.va_id video;
             Store.uv_accessed_at := now |}] /\
     Store.profiles db' = Store.profiles db /\
     Store.video_analyses db' = Store.video_analyses db /\
     Store.video_generations db' = Store.video_generations db)
  /\
  (forall row,
     Store.links_of db userId (Store.va_id video) = [row] ->
     exists tr,
       ensureUserVideoLink (Store.client procedures) now userId youtubeId (db, [])
       = (Normal {| LinkResult.linked := true;
                    LinkResult.videoId := Some (Store.va_id video);
                    LinkResult.error := None |},
          (db, tr))).
Proof.
  intros Hvideo. split.
  - intros Hlinks Hprofile. eexists; eexists. split.
    + apply (link_on_store_created procedures now userId youtubeId db [] video);
        assumption.
    + simpl. repeat split.
      unfold Store.links_of in *; simpl.
      rewrite filter_app, Hlinks. simpl.
      fold (Store.new_link db userId (Store.va_id video) now).
      rewrite links_refl. reflexivity.
  - intros row Hlinks. eexists.
    apply (link_on_store_existing procedures now userId youtubeId db [] video row);
      assumption.
Qed.

Lemma link_row_created_or_kept_witness :
  (exists db' tr,
     ensureUserVideoLink (Store.client no_procedures) "2026-01-22T12:00:00Z"
       "user-1" "dQw4w9WgXcQ" (sample_db, [])
     = (Normal {| LinkResult.linked := true;
                  LinkResult.videoId := Some "video-1";
                  LinkResult.error := None |},
        (db', tr)) /\
     Store.user_videos db'
       = [{| Store.uv_id := 1;
             Store.uv_user_id := "user-1";
             Store.uv_video_id := "video-1";
             Store.uv_accessed_at := "2026-01-22T12:00:00Z" |}])
  /\
  (exists tr,
     ensureUserVideoLink (Store.client no_procedures) "2026-01-22T12:00:00Z"
       "user-1" "dQw4w9WgXcQ" (sample_db_linked, [])
     = (Normal {| LinkResult.linked := true;
                  LinkResult.videoId := Some "video-1";
                  LinkResult.error := None |},
        (sample_db_linked, tr))).
Proof.
  split.
  - destruct (link_row_created_or_kept no_procedures sample_db
                "2026-01-22T12:00:00Z" "user-1" "dQw4w9WgXcQ"
                {| Store.va_id := "video-1"; Store.va_youtube_id := "dQw4w9WgXcQ" |}
                eq_refl) as [Hcreated _].
    destruct (Hcreated eq_refl eq_refl) as [db' [tr [Hrun [Hrows _]]]].
    exists db', tr. split; [exact Hrun | exact Hrows].
  - destruct (link_row_created_or_kept no_procedures sample_db_linked
                "2026-01-22T12:00:00Z" "user-1" "dQw4w9WgXcQ"
                {| Store.va_id := "video-1"; Store.va_youtube_id := "dQw4w9WgXcQ" |}
                eq_refl) as [_ Hkept].
    apply (Hkept {| Store.uv_id := 1;
                    Store.uv_user_id := "user-1";
                    Store.uv_video_id := "video-1";
                    Store.uv_accessed_at := "2026-01-20T10:00:00Z" |}).
    reflexivity.
Defined.

(* ================================================================== *)
(** ** Further properties of the repair endpoint *)

Section HandlerRuns.

Context {S : Type}.
Variable createClient : S -> awaited (SupabaseClient S) * S.
Variable now : string.

#[local] Arguments ensureUserVideoLink : simpl never.

(** The guard rejects: only [req.json()] has been called. *)
Lemma handler_run_rejected (req : NextRequest S) (s s1 : S) (tr : list event)
    (parsed : json) :
  req_json req s = (Resolved parsed, s1) ->
  parsed <> JNull ->
  falsy (videoId_member parsed) || typeof_not_string (videoId_member parsed) = true ->
  handler createClient now req (s, tr)
  = (Normal bad_request, (s1, (tr ++ [EvRequestJson])%list)).
Proof.
  intros Hjson Hnotnull Hguard.
  unfold handler, try_catch, bind, await; simpl. rewrite Hjson; simpl.
  destruct parsed as [| b | n | str | items | fields]; simpl in *;
    try reflexivity; [contradiction |].
  unfold ret at 1. rewrite Hguard. reflexivity.
Qed.

(** Past the guard, call by call. *)
Lemma handler_run_past_guard (req : NextRequest S) (s s1 : S) (tr : list event)
    (parsed : json) (id : string) :
  req_json req s = (Resolved parsed, s1) ->
  videoId_member parsed = Defined (JString id) ->
  String.eqb id "" = false ->
  handler createClient now req (s, tr) =
  match createClient s1 with
  | (Rejected e, s2) =>
      (Normal failed_to_verify,
       (s2, tr ++ [EvRequestJson; EvCreateClient; unexpected_line e])%list)
  | (Resolved supabase, s2) =>
      match auth_getUser supabase s2 with
      | (Rejected e, s3) =>
          (Normal failed_to_verify,
           (s3, tr ++ [EvRequestJson; EvCreateClient; EvGetUser;
                       unexpected_line e])%list)
      | (Resolved None, s3) =>
          (Normal unauthenticated,
           (s3, tr ++ [EvRequestJson; EvCreateClient; EvGetUser])%list)
      | (Resolved (Some user), s3) =>
          match ensureUserVideoLink supabase now (user_id_of user) id
                  (s3, tr ++ [EvRequestJson; EvCreateClient; EvGetUser])%list with
          | (Normal result, (s4, tr4)) =>
              if link_failed result then
                (Normal
                   {| status := 500;
                      body := JObject
                                [("linked", JBool false);
                                 ("error", json_of_option_string (LinkResult.error result))] |},
                 (s4, tr4 ++ [link_failure_line id user result])%list)
              else (Normal (link_report result), (s4, tr4))
          | (Thrown e, (s4, tr4)) =>
              (Normal failed_to_verify, (s4, tr4 ++ [unexpected_line e])%list)
          | (OutOfFuel, w4) => (OutOfFuel, w4)
          end
      end
  end.
Proof.
  intros Hjson Hmember Hid.
  assert (Hdestructure :
            forall w : world S,
              @destructure_videoId S parsed w = (Normal (Defined (JString id)), w)).
  { intros w. destruct parsed; simpl in *; try discriminate.
    unfold ret. rewrite Hmember. reflexivity. }
  unfold handler, try_catch, bind, await; simpl.
  rewrite Hjson; simpl. rewrite Hdestructure; simpl.
  unfold truthy_string. rewrite Hid; simpl.
  destruct (createClient s1) as [[supabase | e] s2]; simpl;
    [| unfold emit, ret; simpl; rewrite <- !app_assoc; reflexivity].
  destruct (auth_getUser supabase s2) as [[[user |] | e] s3]; simpl;
    [| unfold ret; rewrite <- !app_assoc; reflexivity
     | unfold emit, ret; simpl; rewrite <- !app_assoc; reflexivity].
  rewrite <- !app_assoc; simpl.
  destruct (ensureUserVideoLink supabase now (user_id_of user) id
              (s3, (tr ++ [EvRequestJson; EvCreateClient; EvGetUser])%list))
    as [[result | e |] [s4 tr4]]; simpl; [| reflexivity | reflexivity].
  destruct (link_failed result); reflexivity.
Qed.

End HandlerRuns.

Lemma link_events_act_for {S : Type} (supabase : SupabaseClient S)
    (now userId youtubeId : string) (s : S) (tr : list event) :
  exists (result : LinkResult.t) (s' : S) (tr' : list event),
    ensureUserVideoLink supabase now userId youtubeId (s, tr)
      = (Normal result, (s', (tr ++ tr')%list)) /\
    Forall (acts_for userId) tr'.
Proof.
  rewrite ensureUserVideoLink_run.
  destruct (video_analyses_by_youtube_id supabase youtubeId s) as [[v | e] s1].
  2: { eexists; eexists; eexists; split; [reflexivity | repeat constructor]. }
  destruct (error v).
  { eexists; eexists; eexists; split; [reflexivity | repeat constructor]. }
  destruct (data v) as [video |].
  2: { eexists; eexists; eexists; split; [reflexivity | repeat constructor]. }
  cbv zeta.
  destruct (user_videos_by_user_and_video supabase userId (video_id_of video) s1)
    as [[l | e] s2].
  2: { eexists; eexists; eexists; split; [reflexivity | repeat constructor]. }
  destruct (data l).
  { eexists; eexists; eexists; split; [reflexivity | repeat constructor]. }
  destruct (user_videos_upsert supabase _ _ s2) as [[u | e] s3].
  2: { eexists; eexists; eexists; split; [reflexivity | repeat constructor]. }
  destruct (error u); eexists; eexists; eexists;
    (split; [reflexivity | repeat constructor]).
Qed.

Lemma guard_cases (v : optional json) :
  (exists id, v = Defined (JString id) /\ String.eqb id "" = false) \/
  falsy v || typeof_not_string v = true.
Proof.
  destruct v as [| [| b | n | id | items | fields]]; simpl;
    try (right; reflexivity); try (right; apply orb_true_r).
  unfold truthy_string. rewrite negb_involutive, orb_false_r.
  destruct (String.eqb id "") eqn:Hid; [right; reflexivity |].
  left. exists id. split; [reflexivity | exact Hid].
Qed.

(** Closes [Forall P tr] for a trace that is written out. *)
Ltac by_events :=
  simpl;
  repeat (apply Forall_cons; [simpl; try reflexivity; try exact I |]);
  try apply Forall_nil.

Section HandlerProperties.

Context {S : Type}.
Variable createClient : S -> awaited (SupabaseClient S) * S.
Variable now : string.

(** No body to read: the generic 500, after [req.json()] alone. *)
Lemma handler_run_no_body (req : NextRequest S) (s s1 : S) (tr : list event) :
  (exists e, req_json req s = (Rejected e, s1)) \/
  req_json req s = (Resolved JNull, s1) ->
  exists e,
    handler createClient now req (s, tr)
    = (Normal failed_to_verify,
       (s1, (tr ++ [EvRequestJson; unexpected_line e])%list)).
Proof.
  intros [[e Hjson] | Hjson];
    unfold handler, try_catch, bind, await, emit, ret, throw; simpl;
    rewrite Hjson; simpl; eexists; rewrite <- app_assoc; reflexivity.
Qed.

(** X12.  When [req.json()] resolves with a body that has no usable
    [videoId], the handler answers after that call alone: [createClient] is
    not called, no user is looked up and no table is touched.  A body other
    than [null] whose [videoId] is missing, not a string or the empty
    string gets 400; the body [null] makes the destructuring throw and gets
    the generic 500. *)
Theorem bad_input_is_rejected_before_any_call (req : NextRequest S)
    (s s1 : S) (tr : list event) (parsed : json) :
  req_json req s = (Resolved parsed, s1) ->
  (forall id, videoId_member parsed = Defined (JString id) -> id = "") ->
  (parsed <> JNull ->
   handler createClient now req (s, tr)
   = (Normal {| status := 400;
                body := JObject [("error", JString "videoId is required")] |},
      (s1, (tr ++ [EvRequestJson])%list)))
  /\
  (parsed = JNull ->
   exists e,
     handler createClient now req (s, tr)
     = (Normal {| status := 500;
                  body := JObject [("error", JString "Failed to verify video link")] |},
        (s1, (tr ++ [EvRequestJson; unexpected_line e])%list))).
Proof.
  intros Hjson Hbad. split.
  - intros Hnotnull.
    apply (handler_run_rejected createClient now req s s1 tr parsed Hjson Hnotnull).
    destruct (guard_cases (videoId_member parsed)) as [[id [Hmember Hid]] | Hguard];
      [| exact Hguard].
    rewrite (Hbad id Hmember) in Hid. discriminate.
  - intros Hnull. subst parsed.
    apply (handler_run_no_body req s s1 tr). right. exact Hjson.
Qed.

(** X13.  The trace of a request holds a call on a table only when
    [getUser] has resolved a user, and then every call on [user_videos],
    the link query and the upsert, names that user's id: the [videoId] of
    the body never decides for whom a link is made. *)
Theorem tables_are_touched_for_the_caller_only (req : NextRequest S) (s : S) :
  exists (resp : NextResponse) (s' : S) (tr : list event),
    handler createClient now req (s, []) = (Normal resp, (s', tr)) /\
    (Forall (fun ev => is_table_call ev = false) tr \/
     exists parsed s1 supabase s2 user s3,
       req_json req s = (Resolved parsed, s1) /\
       createClient s1 = (Resolved supabase, s2) /\
       auth_getUser supabase s2 = (Resolved (Some user), s3) /\
       Forall (acts_for (user_id_of user)) tr).
Proof.
  destruct (req_json req s) as [[parsed | e] s1] eqn:Hjson.
  2: { destruct (handler_run_no_body req s s1 []) as [e' Hrun];
         [left; exists e; exact Hjson |].
       rewrite Hrun. eexists; eexists; eexists; split; [reflexivity |].
       left. by_events. }
  destruct parsed as [| b | n | str | items | fields] eqn:Hparsed.
  { destruct (handler_run_no_body req s s1 []) as [e' Hrun];
      [right; exact Hjson |].
    rewrite Hrun. eexists; eexists; eexists; split; [reflexivity |].
    left. by_events. }
  all: rewrite <- Hparsed in Hjson;
    assert (Hnotnull : parsed <> JNull) by (rewrite Hparsed; discriminate);
    destruct (guard_cases (videoId_member parsed)) as [[id [Hmember Hid]] | Hguard];
    [| rewrite (handler_run_rejected createClient now req s s1 [] parsed
                  Hjson Hnotnull Hguard);
       eexists; eexists; eexists; split; [reflexivity |];
       left; by_events];
    rewrite (handler_run_past_guard createClient now req s s1 [] parsed id
               Hjson Hmember Hid);
    destruct (createClient s1) as [[supabase | e] s2] eqn:Hclient;
    [| eexists; eexists; eexists; split; [reflexivity |];
       left; by_events];
    destruct (auth_getUser supabase s2) as [[[user |] | e] s3] eqn:Huser;
    [| eexists; eexists; eexists; split; [reflexivity |];
       left; by_events
     | eexists; eexists; eexists; split; [reflexivity |];
       left; by_events];
    destruct (link_events_act_for supabase now (user_id_of user) id s3
                ([] ++ [EvRequestJson; EvCreateClient; EvGetUser]))
      as [result [s4 [tr' [Hrun Hacts]]]];
    rewrite Hrun;
    destruct (link_failed result);
    (eexists; eexists; eexists; split; [reflexivity |]);
    right; exists parsed, s1, supabase, s2, user, s3;
    (split; [first [exact Hjson | rewrite Hparsed; reflexivity]
            | split; [first [exact Hclient | reflexivity]
                     | split; [first [exact Huser | reflexivity] |]]]);
    repeat (apply Forall_app; split); try exact Hacts; by_events.
Qed.

End HandlerProperties.

Lemma bad_input_is_rejected_before_any_call_witness :
  handler store_createClient "2026-01-22T12:00:00Z"
    (request_with (JObject [("videoId", JNumber 7)])) (sample_db, [])
  = (Normal {| status := 400;
               body := JObject [("error", JString "videoId is required")] |},
     (sample_db, [EvRequestJson]))
  /\
  exists e,
    handler store_createClient "2026-01-22T12:00:00Z"
      (request_with JNull) (sample_db, [])
    = (Normal {| status := 500;
                 body := JObject [("error", JString "Failed to verify video link")] |},
       (sample_db, [EvRequestJson; unexpected_line e])).
Proof.
  split.
  - apply (bad_input_is_rejected_before_any_call store_createClient
             "2026-01-22T12:00:00Z"
             (request_with (JObject [("videoId", JNumber 7)]))
             sample_db sample_db [] (JObject [("videoId", JNumber 7)])).
    + reflexivity.
    + intros id Hmember. simpl in Hmember. discriminate.
    + discriminate.
  - apply (bad_input_is_rejected_before_any_call store_createClient
             "2026-01-22T12:00:00Z" (request_with JNull)
             sample_db sample_db [] JNull).
    + reflexivity.
    + intros id Hmember. simpl in Hmember. discriminate.
    + reflexivity.
Defined.

(* ------------------------------------------------------------------ *)
(** *** The endpoint in front of the store *)

Section EndpointOnStore.

Import Store.

Variable procedures : string -> RpcArgs -> Db -> awaited (Response string) * Db.



End EndpointOnStore.







(* ================================================================== *)
(** ** Further properties of the bulk repair statement *)

Section MigrationProperties.

Import Store Migration.

Lemma links_pair_of (user video : string) (row : UserVideo) :
  links user video row = true <-> pair_of row = (user, video).
Proof.
  unfold links, pair_of. rewrite andb_true_iff, !String.eqb_eq.
  split; [intros [-> ->]; reflexivity | intros H; injection H; auto].
Qed.

Lemma existsb_links_false (user video : string) (rows : list UserVideo) :
  existsb (links user video) rows = false <->
  ~ In (user, video) (map pair_of rows).
Proof.
  split.
  - intros Hnone Hin. apply in_map_iff in Hin. destruct Hin as [row [Hpair Hin]].
    assert (existsb (links user video) rows = true)
      by (apply existsb_exists; exists row; split;
          [exact Hin | apply links_pair_of; exact Hpair]).
    congruence.
  - intros Hnotin. destruct (existsb (links user video) rows) eqn:Hex; [| reflexivity].
    exfalso. apply Hnotin. apply existsb_exists in Hex.
    destruct Hex as [row [Hin Hrow]]. apply in_map_iff. exists row.
    split; [apply links_pair_of; exact Hrow | exact Hin].
Qed.

(** The rows a sequence of proposed rows adds: each is one of the proposed
    rows, for a pair the store had no row for, and no two are for the
    same pair. *)
Lemma insert_rows_new_rows (rows : list Candidate) :
  forall db db' : Db,
    insert_rows rows db = inl db' ->
    exists new,
      user_videos db' = (user_videos db ++ new)%list /\
      Forall (fun row =>
                In (uv_user_id row, uv_video_id row, uv_accessed_at row) rows /\
                ~ In (pair_of row) (map pair_of (user_videos db)))
             new /\
      NoDup (map pair_of new).
Proof.
  induction rows as [| [[user video] accessed_at] rows IH]; intros db db' Hrun.
  - injection Hrun as <-. exists []. rewrite app_nil_r.
    split; [reflexivity | split; constructor].
  - cbn [insert_rows] in Hrun.
    destruct (insert_row (user, video, accessed_at) db) as [db1 | e] eqn:Hrow;
      [| discriminate].
    destruct (IH db1 db' Hrun) as [new2 [Hrows2 [Hnew2 Hnodup2]]].
    unfold insert_row in Hrow.
    destruct (existsb (links user video) (user_videos db)) eqn:Hpresent.
    + (* skipped *)
      injection Hrow as <-. exists new2. split; [exact Hrows2 |].
      split; [| exact Hnodup2].
      apply Forall_impl with (2 := Hnew2).
      intros row [Hin Hfresh]. split; [right; exact Hin | exact Hfresh].
    + destruct (has_profile db user); simpl in Hrow; [| discriminate].
      injection Hrow as <-. simpl in *.
      exists (new_link db user video accessed_at :: new2).
      split; [rewrite Hrows2, <- app_assoc; reflexivity |].
      assert (Hfresh2 : Forall (fun row =>
                 ~ In (pair_of row) (map pair_of (user_videos db)) /\
                 pair_of row <> (user, video)) new2).
      { apply Forall_impl with (2 := Hnew2). intros row [_ Hfresh].
        rewrite map_app, in_app_iff in Hfresh. simpl in Hfresh.
        split; [tauto |]. intros Heq. apply Hfresh. right. left.
        unfold pair_of at 1; simpl. symmetry. exact Heq. }
      split.
      * constructor.
        -- split; [left; reflexivity |].
           apply existsb_links_false. exact Hpresent.
        -- rewrite Forall_forall in *. intros row Hin.
           split; [right; apply (Hnew2 row Hin) | apply (Hfresh2 row Hin)].
      * simpl. constructor; [| exact Hnodup2].
        intros Hin. apply in_map_iff in Hin. destruct Hin as [row [Hpair Hin]].
        rewrite Forall_forall in Hfresh2.
        apply (proj2 (Hfresh2 row Hin)). exact Hpair.
Qed.

End MigrationProperties.

(** X17.  The statement repairs every missing link: for every store it
    succeeds, and afterwards each generation event of a user who has a
    profile, on a video that has an analysis, finds a [user_videos] row
    for that user and that video. *)
Theorem bulk_repair_links_every_pair (db : Store.Db) :
  exists db1 : Store.Db,
    Migration.fix_missing_user_videos db = inl db1 /\
    forall g a pr user,
      In g (Store.video_generations db) ->
      In a (Store.video_analyses db) ->
      In pr (Store.profiles db) ->
      Store.vg_user_id g = Some user ->
      Store.va_youtube_id a = Store.vg_youtube_id g ->
      Store.profile_id pr = user ->
      exists row,
        In row (Store.user_videos db1) /\
        Store.uv_user_id row = user /\
        Store.uv_video_id row = Store.va_id a.
Proof.
  destruct (insert_rows_ok (Migration.select_distinct db) db)
    as [db1 [Hrun [Hext [Hlinked _]]]];
    [intros c Hc; apply selected_have_profile; exact Hc |].
  exists db1. split; [exact Hrun |].
  intros g a pr user Hg Ha Hpr Huser Hyt Hid.
  assert (Hpresent : existsb (Store.links user (Store.va_id a)) (Store.user_videos db1) = true).
  { destruct (existsb (Store.links user (Store.va_id a)) (Store.user_videos db)) eqn:Hbefore.
    - apply (existsb_links_extends db db1); assumption.
    - apply (Hlinked user (Store.va_id a) (Store.vg_created_at g)).
      apply in_select_distinct. exists g, a, pr. repeat split; assumption. }
  apply existsb_exists in Hpresent. destruct Hpresent as [row [Hin Hrow]].
  exists row. split; [exact Hin |].
  unfold Store.links in Hrow. apply andb_true_iff in Hrow.
  destruct Hrow as [Hu Hv]. apply String.eqb_eq in Hu, Hv. split; assumption.
Qed.

Lemma bulk_repair_links_every_pair_witness :
  exists db1 : Store.Db,
    Migration.fix_missing_user_videos sample_db = inl db1 /\
    exists row,
      In row (Store.user_videos db1) /\
      Store.uv_user_id row = "user-1" /\
      Store.uv_video_id row = "video-1".
Proof.
  destruct (bulk_repair_links_every_pair sample_db) as [db1 [Hrun Hall]].
  exists db1. split; [exact Hrun |].
  apply (Hall {| Store.vg_user_id := Some "user-1";
                 Store.vg_youtube_id := "dQw4w9WgXcQ";
                 Store.vg_created_at := "2026-01-20T10:00:00Z" |}
              {| Store.va_id := "video-1"; Store.va_youtube_id := "dQw4w9WgXcQ" |}
              {| Store.profile_id := "user-1" |} "user-1");
    try reflexivity; left; reflexivity.
Defined.

(** X18.  Every row the statement inserts comes from a generation event:
    its [user_id] is the user of the event, who has a profile, its
    [video_id] is the internal id of an analysis with the event's external
    id, and its [accessed_at] is the event's [created_at]; events without a
    user, a profile or an analysis yield nothing. *)
Theorem bulk_repair_rows_come_from_events (db db1 : Store.Db) :
  Migration.fix_missing_user_videos db = inl db1 ->
  Forall (fun row =>
            exists g a pr,
              In g (Store.video_generations db) /\
              In a (Store.video_analyses db) /\
              In pr (Store.profiles db) /\
              Store.vg_user_id g = Some (Store.uv_user_id row) /\
              Store.profile_id pr = Store.uv_user_id row /\
              Store.va_youtube_id a = Store.vg_youtube_id g /\
              Store.va_id a = Store.uv_video_id row /\
              Store.vg_created_at g = Store.uv_accessed_at row)
         (Migration.inserted db db1).
Proof.
  intros Hrun. unfold Migration.fix_missing_user_videos in Hrun.
  destruct (insert_rows_new_rows _ _ _ Hrun) as [new [Hrows [Hnew _]]].
  assert (Hins : Migration.inserted db db1 = new).
  { unfold Migration.inserted.
    rewrite Hrows, skipn_app, skipn_all, Nat.sub_diag. reflexivity. }
  rewrite Hins. apply Forall_impl with (2 := Hnew).
  intros row [Hin _]. apply in_select_distinct in Hin.
  destruct Hin as [g [a [pr [Hg [Ha [Hpr [Huser [Hyt [Hid [Hv [Ht _]]]]]]]]]]].
  exists g, a, pr. repeat split; assumption.
Qed.

(** X19.  For every store, also one that breaks the unique constraint, the
    statement inserts at most one row for a pair and none for a pair that
    has a row already, however many generation events there are for the
    pair; the rows there were stay as they are, in front of the new ones. *)
Theorem bulk_repair_inserts_each_pair_once (db db1 : Store.Db) :
  Migration.fix_missing_user_videos db = inl db1 ->
  Store.user_videos db1 = (Store.user_videos db ++ Migration.inserted db db1)%list /\
  NoDup (map pair_of (Migration.inserted db db1)) /\
  forall row,
    In row (Migration.inserted db db1) ->
    ~ In (pair_of row) (map pair_of (Store.user_videos db)).
Proof.
  intros Hrun. unfold Migration.fix_missing_user_videos in Hrun.
  destruct (insert_rows_new_rows _ _ _ Hrun) as [new [Hrows [Hnew Hnodup]]].
  assert (Hins : Migration.inserted db db1 = new).
  { unfold Migration.inserted.
    rewrite Hrows, skipn_app, skipn_all, Nat.sub_diag. reflexivity. }
  rewrite Hins. split; [exact Hrows |]. split; [exact Hnodup |].
  intros row Hin. rewrite Forall_forall in Hnew. apply (Hnew row Hin).
Qed.

Lemma bulk_repair_rows_come_from_events_witness :
  exists db1 : Store.Db,
    Migration.fix_missing_user_videos sample_db_history = inl db1 /\
    List.length (Migration.inserted sample_db_history db1) = 2%nat /\
    Forall (fun row =>
              exists g a pr,
                In g (Store.video_generations sample_db_history) /\
                In a (Store.video_analyses sample_db_history) /\
                In pr (Store.profiles sample_db_history) /\
                Store.vg_user_id g = Some (Store.uv_user_id row) /\
                Store.profile_id pr = Store.uv_user_id row /\
                Store.va_youtube_id a = Store.vg_youtube_id g /\
                Store.va_id a = Store.uv_video_id row /\
                Store.vg_created_at g = Store.uv_accessed_at row)
           (Migration.inserted sample_db_history db1).
Proof.
  eexists. split; [vm_compute; reflexivity |]. split; [reflexivity |].
  apply (bulk_repair_rows_come_from_events sample_db_history).
  vm_compute. reflexivity.
Defined.

Lemma bulk_repair_inserts_each_pair_once_witness :
  exists db1 : Store.Db,
    Migration.fix_missing_user_videos sample_db_history = inl db1 /\
    map pair_of (Migration.inserted sample_db_history db1)
      = [("u1", "v1"); ("u2", "v2")] /\
    NoDup (map pair_of (Migration.inserted sample_db_history db1)).
Proof.
  eexists. split; [vm_compute; reflexivity |]. split; [reflexivity |].
  apply (bulk_repair_inserts_each_pair_once sample_db_history).
  vm_compute. reflexivity.
Defined.

(* ================================================================== *)
(** ** Properties of the [SuggestedQuestions] component *)

Section ComponentProperties.

Import Component.

Lemma after_last_dash_digits (d : Decimal.uint) :
  after_last_dash (NilEmpty.string_of_uint d) = None.
Proof.
  induction d; simpl; try rewrite IHd; reflexivity.
Qed.

Lemma after_last_dash_key (q tail : string) :
  after_last_dash tail = None ->
  after_last_dash (q ++ "-" ++ tail) = Some tail.
Proof.
  intros Htail. induction q as [| c q IH]; simpl.
  - rewrite Htail. reflexivity.
  - simpl in IH. rewrite IH. reflexivity.
Qed.

Lemma String_of_index_inj (i j : nat) :
  String_of_index i = String_of_index j -> i = j.
Proof.
  unfold String_of_index. intros H.
  assert (Hu : Nat.to_uint i = Nat.to_uint j).
  { apply (f_equal NilEmpty.uint_of_string) in H.
    rewrite !NilEmpty.usu in H. congruence. }
  apply (f_equal Nat.of_uint) in Hu.
  rewrite !DecimalNat.Unsigned.of_to in Hu. exact Hu.
Qed.

(** A key names its index: the index is what follows the last dash. *)
Lemma key_names_index (q1 q2 : string) (i j : nat) :
  q1 ++ "-" ++ String_of_index i = q2 ++ "-" ++ String_of_index j -> i = j.
Proof.
  intros H. apply (f_equal after_last_dash) in H.
  rewrite !after_last_dash_key in H by apply after_last_dash_digits.
  apply String_of_index_inj. congruence.
Qed.

Lemma nth_error_map_from {A B : Type} (f : A -> nat -> B) (l : list A) :
  forall (start i : nat),
    nth_error (map_from f start l) i
    = option_map (fun x => f x (start + i)%nat) (nth_error l i).
Proof.
  induction l as [| x l IH]; intros start i.
  - destruct i; reflexivity.
  - destruct i as [| i]; simpl.
    + rewrite Nat.add_0_r. reflexivity.
    + rewrite IH. rewrite Nat.add_succ_r. reflexivity.
Qed.

Lemma length_map_from {A B : Type} (f : A -> nat -> B) (l : list A) :
  forall start, List.length (map_from f start l) = List.length l.
Proof.
  induction l as [| x l IH]; intros start; simpl; [reflexivity | rewrite IH; reflexivity].
Qed.

Lemma in_map_from {A B : Type} (f : A -> nat -> B) (l : list A) :
  forall (start : nat) (b : B),
    In b (map_from f start l) ->
    exists x i, (start <= i)%nat /\ b = f x i.
Proof.
  induction l as [| x l IH]; intros start b Hin; [destruct Hin |].
  destruct Hin as [<- | Hin].
  - exists x, start. split; [lia | reflexivity].
  - destruct (IH _ _ Hin) as [y [i [Hi Hb]]]. exists y, i. split; [lia | exact Hb].
Qed.

Lemma keys_distinct_from {A : Type} (key_of : A -> nat -> string) (l : list A) :
  (forall x y i j, key_of x i = key_of y j -> i = j) ->
  forall start, NoDup (map_from key_of start l).
Proof.
  intros Hinj. induction l as [| x l IH]; intros start; simpl; constructor.
  - intros Hin. apply in_map_from in Hin. destruct Hin as [y [i [Hi Hkey]]].
    apply Hinj in Hkey. lia.
  - apply IH.
Qed.

Lemma map_map_from {A B C : Type} (g : B -> C) (f : A -> nat -> B) (l : list A) :
  forall start, map g (map_from f start l) = map_from (fun x i => g (f x i)) start l.
Proof.
  induction l as [| x l IH]; intros start; simpl; [reflexivity | rewrite IH; reflexivity].
Qed.

End ComponentProperties.

(** X20.  The keys of the rendered buttons are pairwise distinct, also
    when a question occurs twice or itself ends in a dash and digits: the
    key is the question, a dash and the index. *)
Theorem button_keys_are_distinct {R : Type}
    (props : Component.SuggestedQuestionsProps R) (el : Component.DivElement R) :
  Component.SuggestedQuestions props = Some el ->
  NoDup (map Component.key (Component.div_children el)).
Proof.
  unfold Component.SuggestedQuestions.
  destruct (List.length (Component.questions props) =? 0)%nat; [discriminate |].
  intros Hel. injection Hel as <-. simpl.
  unfold Component.Array_map. rewrite map_map_from. simpl.
  apply keys_distinct_from.
  intros x y i j. apply key_names_index.
Qed.

Lemma button_keys_are_distinct_witness :
  exists el : Component.DivElement (string * nat),
    Component.SuggestedQuestions
      {| Component.questions := ["Why?"; "Why?"; "Why?-1"; "Why"];
         Component.onQuestionClick := fun question index => (question, index);
         Component.isLoading := Undefined;
         Component.isChatLoading := Undefined |} = Some el /\
    map Component.key (Component.div_children el)
      = ["Why?-0"; "Why?-1"; "Why?-1-2"; "Why-3"] /\
    NoDup (map Component.key (Component.div_children el)).
Proof.
  eexists. split; [reflexivity |]. split; [reflexivity |].
  apply (button_keys_are_distinct
           {| Component.questions := ["Why?"; "Why?"; "Why?-1"; "Why"];
              Component.onQuestionClick := fun question index => (question, index);
              Component.isLoading := Undefined;
              Component.isChatLoading := Undefined |}).
  reflexivity.
Defined.

(** X21.  The component renders nothing exactly for an empty list;
    otherwise it renders one button for each question, in order: the
    button at position [i] shows the question at position [i], a click on
    it calls [onQuestionClick] with that question and [i], and it is
    disabled exactly when [isChatLoading] is set (absent counts as
    false). *)
Theorem buttons_follow_questions {R : Type}
    (props : Component.SuggestedQuestionsProps R) :
  (Component.SuggestedQuestions props = None <-> Component.questions props = []) /\
  forall el,
    Component.SuggestedQuestions props = Some el ->
    List.length (Component.div_children el)
      = List.length (Component.questions props) /\
    forall i question,
      nth_error (Component.questions props) i = Some question ->
      exists button,
        nth_error (Component.div_children el) i = Some button /\
        Component.children button = question /\
        Component.onClick button tt = Component.onQuestionClick props question i /\
        Component.disabled button = nullish (Component.isChatLoading props) false.
Proof.
  unfold Component.SuggestedQuestions. split.
  - destruct (Component.questions props) as [| q qs]; simpl.
    + split; reflexivity.
    + split; discriminate.
  - intros el.
    destruct (List.length (Component.questions props) =? 0)%nat; [discriminate |].
    intros Hel. injection Hel as <-. simpl. unfold Component.Array_map.
    split; [apply length_map_from |].
    intros i question Hq. rewrite nth_error_map_from, Hq. simpl.
    eexists. split; [reflexivity |]. simpl. repeat split.
Qed.

Lemma buttons_follow_questions_witness :
  exists el : Component.DivElement (string * nat),
    Component.SuggestedQuestions
      {| Component.questions := ["What is it about?"; "Who made it?"];
         Component.onQuestionClick := fun question index => (question, index);
         Component.isLoading := Undefined;
         Component.isChatLoading := Defined true |} = Some el /\
    exists button,
      nth_error (Component.div_children el) 1 = Some button /\
      Component.children button = "Who made it?" /\
      Component.onClick button tt = ("Who made it?", 1%nat) /\
      Component.disabled button = true.
Proof.
  eexists. split; [reflexivity |].
  destruct (buttons_follow_questions
              {| Component.questions := ["What is it about?"; "Who made it?"];
                 Component.onQuestionClick := fun question index => (question, index);
                 Component.isLoading := Undefined;
                 Component.isChatLoading := Defined true |}) as [_ Hbuttons].
  destruct (Hbuttons _ eq_refl) as [_ Hnth].
  apply (Hnth 1%nat "Who made it?"). reflexivity.
Defined.
